(** * Pyomo set engine: [pyomo/core/base/set.py]

    A shallow embedding of the set classes of [set.py] ([_SetData],
    [_InfiniteSet], [_FiniteSetData], [_OrderedSetData] and the ordered
    mixin) together with the properties of the engine's specification.

    Python values are modelled by the inductive type [value]; a Python
    [set] is a [gset value], a [dict] from elements to positions is a
    [gmap value nat], a [list] or [tuple] is a [list].  Python integers are
    unbounded, so positions and steps are in [Z].  Exceptions are explicit:
    a method returns a [result]. *)

From Stdlib Require Import ZArith List.
From stdpp Require Import base gmap sets list strings sorting.

Set Warnings "-register-all".
Open Scope Z_scope.

(** ** Python values *)

Module Py.

(** The hashable values that are stored in sets: integers, strings and
    tuples of such values. *)
Inductive value : Type :=
| VInt (z : Z)
| VStr (s : string)
| VTuple (items : list value).

(** Induction over values with the hypothesis available for every
    component of a tuple. *)
Lemma value_rect' (P : value → Type) (Q : list value → Type) :
  (∀ z, P (VInt z)) →
  (∀ s, P (VStr s)) →
  (∀ l, Q l → P (VTuple l)) →
  Q [] →
  (∀ v l, P v → Q l → Q (v :: l)) →
  ∀ v, P v.
Proof.
  intros Hint Hstr Htup Hnil Hcons.
  fix IH 1. intros [z|s|l].
  - apply Hint.
  - apply Hstr.
  - apply Htup. induction l as [|v l IHl].
    + exact Hnil.
    + apply Hcons; [apply IH | exact IHl].
Defined.

Fixpoint to_tree (v : value) : gen_tree (Z + string) :=
  match v with
  | VInt z => GenLeaf (inl z)
  | VStr s => GenLeaf (inr s)
  | VTuple l => GenNode 0 (List.map to_tree l)
  end.

Fixpoint of_tree (t : gen_tree (Z + string)) : value :=
  match t with
  | GenLeaf (inl z) => VInt z
  | GenLeaf (inr s) => VStr s
  | GenNode _ l => VTuple (List.map of_tree l)
  end.

Lemma of_to_tree v : of_tree (to_tree v) = v.
Proof.
  induction v using value_rect'
    with (Q := fun l => List.map of_tree (List.map to_tree l) = l);
    simpl; congruence.
Qed.

#[global] Instance value_eq_dec : EqDecision value.
Proof.
  intros x y.
  destruct (decide (to_tree x = to_tree y)) as [E|N].
  - left. rewrite <- (of_to_tree x), <- (of_to_tree y). by rewrite E.
  - right. intros ->. by apply N.
Defined.

#[global] Instance value_countable : Countable value :=
  inj_countable' to_tree of_tree of_to_tree.

(** [pyutilib.misc.misc.flatten_tuple]: a value that is not a tuple is
    returned as it is; the components of a tuple are flattened, nested
    tuples included, into one flat tuple. *)
Fixpoint flatten (v : value) : list value :=
  match v with
  | VTuple l => List.flat_map flatten l
  | _ => [v]
  end.

Definition flatten_tuple (v : value) : value :=
  match v with
  | VTuple l => VTuple (List.flat_map flatten l)
  | _ => v
  end.

(** The exceptions raised in [set.py].  The [IndexError]s are told
    apart by their message. *)
Inductive index_error : Type :=
| PastLastElement      (* "Cannot index a Set past the last element" *)
| BeforeFirstElement   (* "Cannot index a Set before the first element" *)
| InvalidIndex         (* "Valid index values for sets are 1 .. len(set) or -1 .. -len(set)" *)
| ItemNotInSet         (* "Cannot identify position of %s in Set %s: item not in Set" *)
| ListIndexOutOfRange. (* "list index out of range", raised by the built-in list *)

Inductive exn : Type :=
| DeveloperError       (* "Derived set class (%s) failed to implement __contains__" *)
| ValueError           (* "Cannot add value %s to set %s. The value is not in the Set's domain" *)
| TypeError            (* built-in: the object is not iterable, or __len__ gave no integer *)
| AttributeError       (* built-in: the object has no such method *)
| ZeroDivisionError    (* built-in: integer modulo by zero *)
| IndexError (m : index_error).

Inductive result (A : Type) : Type :=
| Ok (a : A)
| Raise (e : exn).
Arguments Ok {A} a.
Arguments Raise {A} e.

(** A record of the [pyomo.core] logger. *)
Inductive log_record : Type :=
| Warning_already_exists (v : value). (* "Element %s already exists in set %s; no action taken" *)

End Py.
Import Py.

(** The error monad of methods that read their object without changing it. *)
Definition rbind {A B} (m : result A) (k : A → result B) : result B :=
  match m with
  | Ok a => k a
  | Raise e => Raise e
  end.

Notation "'let?' x ':=' m 'in' k" := (rbind m (fun x => k))
  (at level 10, x name, m at level 100, k at level 200, only parsing).

(** ** The class hierarchy and Python's method resolution *)

Module Classes.

Inductive class : Type :=
| object
| ComponentData
| _SetData
| _InfiniteSet
| _FiniteSetMixin
| _FiniteSetData
| _OrderedSetMixin
| _OrderedSetData.

#[global] Instance class_eq_dec : EqDecision class.
Proof. solve_decision. Defined.

(** The bases of every class, in the order of its [class] statement. *)
Definition bases (c : class) : list class :=
  match c with
  | object => []
  | ComponentData => [object]
  | _SetData => [ComponentData]
  | _InfiniteSet => [_SetData]
  | _FiniteSetMixin => [object]
  | _FiniteSetData => [_SetData; _FiniteSetMixin]
  | _OrderedSetMixin => [_FiniteSetMixin]
  | _OrderedSetData => [_FiniteSetData; _OrderedSetMixin]
  end.

(** C3 linearisation, the order in which Python searches the classes of
    an object for a method.  [merge] takes the first head that is in the
    tail of no sequence, removes it from every sequence, and goes on;
    [None] is the inconsistent hierarchy that Python refuses. *)
Definition good_head (seqs : list (list class)) (c : class) : bool :=
  forallb (fun s => negb (bool_decide (c ∈ tail s))) seqs.

Definition drop_head (c : class) (s : list class) : list class :=
  match s with
  | h :: t => if decide (h = c) then t else s
  | [] => []
  end.

Fixpoint merge (fuel : nat) (seqs : list (list class)) : option (list class) :=
  match fuel with
  | O => None
  | S fuel =>
      match List.filter (fun s => negb (bool_decide (s = []))) seqs with
      | [] => Some []
      | seqs =>
          match List.find (good_head seqs) (omap head seqs) with
          | Some c => cons c <$> merge fuel (List.map (drop_head c) seqs)
          | None => None
          end
      end
  end.

Fixpoint linearize (fuel : nat) (c : class) : option (list class) :=
  match fuel with
  | O => None
  | S fuel =>
      ls ← mapM (linearize fuel) (bases c);
      cons c <$> merge 64 (ls ++ [bases c])
  end.

Definition mro (c : class) : list class := default [] (linearize 8 c).

(** The methods through which [_SetData] reaches a set object, and the
    classes of [set.py] that define each. *)
Inductive method : Type :=
| m_is_finite
| m___contains__
| m___len__
| m___iter__
| m_ranges.

Definition defines (c : class) (m : method) : bool :=
  match c, m with
  | _SetData, (m___contains__ | m___len__ | m_is_finite) => true
  | _InfiniteSet, (m___contains__ | m_ranges) => true
  | _FiniteSetMixin, m_is_finite => true
  | _FiniteSetData, (m___contains__ | m___iter__ | m___len__) => true
  | _OrderedSetData, m___iter__ => true
  | _, _ => false
  end.

(** The class whose definition of [m] an instance of [c] runs: the first
    class of the resolution order that has one. *)
Definition resolve (c : class) (m : method) : option class :=
  List.find (fun k => defines k m) (mro c).

(** [obj.is_finite()] for an instance of class [c]:
    [_SetData.is_finite] returns [False] and [_FiniteSetMixin.is_finite]
    returns [True].  Every class below [_SetData] finds one of the two. *)
Definition is_finite (c : class) : bool :=
  match resolve c m_is_finite with
  | Some _FiniteSetMixin => true
  | _ => false
  end.

End Classes.

(** ** Ranges and domains *)

(** [_InfiniteRange] is named by [set.py] and defined elsewhere.  The set
    classes use four operations of a range: the membership test [val in r],
    [r.isdisjoint(s)], [r.issubset(s)], and the comparison [r == s] that
    the comparison of two tuples of ranges makes element by element. *)
Class RangeAPI (Range : Type) : Type := {
  range_contains : Range → value → bool;
  range_isdisjoint : Range → Range → bool;
  range_issubset : Range → Range → bool;
  range_eq : Range → Range → bool
}.

(** The domain of a finite set is used through its membership test only. *)
Definition domain : Type := value → bool.

(** Modelled from the spec: [Any], the default domain of a finite set,
    which [set.py] names and does not define: the universal domain that
    accepts everything (section 3). *)
Definition Any : domain := fun _ => true.

(** [self._domain is not None and value not in self._domain] *)
Definition outside_domain (d : option domain) (v : value) : bool :=
  match d with
  | Some d => negb (d v)
  | None => false
  end.

(** What a call of [add] leaves behind: the value returned or the exception
    raised, the object afterwards, and the records written to the logger. *)
Record outcome (S : Type) : Type := Outcome {
  ret : result unit;
  state : S;
  logged : list log_record
}.
Arguments Outcome {S} ret state logged.
Arguments ret {S} o.
Arguments state {S} o.
Arguments logged {S} o.

(** ** [_FiniteSetData] *)

Module FiniteSetData.

Record t : Type := Build {
  _values : gset value;
  _domain : option domain
}.

Definition __init__ (dom : option domain) : t :=
  {| _values := ∅;
     _domain := Some (match dom with None => Any | Some d => d end) |}.

Definition __contains__ (self : t) (item : value) : bool :=
  bool_decide (item ∈ _values self).

Definition __iter__ (self : t) : list value := elements (_values self).

Definition __len__ (self : t) : nat := size (_values self).

(** Every value of the model is hashable, so the [except] clause of [add],
    which turns a failure of the container into a [TypeError], is never
    entered.  After the warning the code still calls [self._values.add]. *)
Definition add (self : t) (v : value) : outcome t :=
  if outside_domain (_domain self) v
  then Outcome (Raise ValueError) self []
  else
    let v := flatten_tuple v in
    let log := if bool_decide (v ∈ _values self)
               then [Warning_already_exists v] else [] in
    Outcome (Ok tt)
            {| _values := {[ v ]} ∪ _values self; _domain := _domain self |}
            log.

End FiniteSetData.

(** ** [_OrderedSetData] and [_OrderedSetMixin] *)

Module OrderedSetData.

(** [_is_sorted]: [None], [_InsertionOrder = 1], [_Sorted = 2] or
    [_SortNeeded = 3]. *)
Inductive order_state : Type :=
| Unresolved
| _InsertionOrder
| _Sorted
| _SortNeeded.

#[global] Instance order_state_eq_dec : EqDecision order_state.
Proof. solve_decision. Defined.

Definition _DataOK (o : order_state) : bool :=
  match o with
  | _InsertionOrder | _Sorted => true
  | _ => false
  end.

Record t : Type := Build {
  _values : gmap value nat;
  _ordered_values : list value;
  _is_sorted : order_state;
  _domain : option domain
}.

(** [__init__(self, component)]: the base initialiser is called without a
    domain and installs [Any]. *)
Definition __init__ : t :=
  {| _values := ∅; _ordered_values := []; _is_sorted := Unresolved;
     _domain := Some Any |}.

(** The owner of the data decides the order ([parent_component().ordering])
    and [sorted_robust] of [pyomo.core.base.misc] sorts; neither is defined
    in [set.py]. *)
Class Owner : Type := {
  sorted_robust : list value → list value;
  ordering : t → order_state
}.

(** [enumerate(l)] and [dict((j, i) for i, j in enumerate(l))]: a later
    pair replaces an earlier one with the same key. *)
Definition enumerate (l : list value) : list (nat * value) := imap pair l.

Definition dict_of (ps : list (nat * value)) : gmap value nat :=
  fold_left (fun m p => <[ p.2 := p.1 ]> m) ps ∅.

Definition __contains__ (self : t) (item : value) : bool :=
  bool_decide (is_Some (_values self !! item)).

Definition __len__ (self : t) : nat := size (_values self).

Definition add (self : t) (v : value) : outcome t :=
  if outside_domain (_domain self) v
  then Outcome (Raise ValueError) self []
  else
    let v := flatten_tuple v in
    if bool_decide (is_Some (_values self !! v))
    then Outcome (Ok tt) self [Warning_already_exists v]
    else
      Outcome (Ok tt)
        {| _values := <[ v := size (_values self) ]> (_values self);
           _ordered_values := _ordered_values self ++ [v];
           _is_sorted := if decide (_is_sorted self = _Sorted)
                         then _SortNeeded else _is_sorted self;
           _domain := _domain self |}
        [].

(** Python's [l[i]] on a list: a negative index counts from the end. *)
Definition list_getitem (l : list value) (i : Z) : result value :=
  let j := if i <? 0 then Z.of_nat (length l) + i else i in
  if j <? 0 then Raise (IndexError ListIndexOutOfRange)
  else match l !! Z.to_nat j with
       | Some x => Ok x
       | None => Raise (IndexError ListIndexOutOfRange)
       end.

(** Python's [a % b] on integers: the sign of the result is the sign of
    [b], as for [Z.modulo]. *)
Definition py_mod (a b : Z) : result Z :=
  if b =? 0 then Raise ZeroDivisionError else Ok (a mod b).

(** Methods that may resolve the order change their object: they take the
    object and return it with their result. *)
Definition M (A : Type) : Type := t → result A * t.

Definition mret {A} (a : A) : M A := fun self => (Ok a, self).
Definition mraise {A} (e : exn) : M A := fun self => (Raise e, self).
Definition bind {A B} (m : M A) (k : A → M B) : M B :=
  fun self =>
    match m self with
    | (Ok a, self) => k a self
    | (Raise e, self) => (Raise e, self)
    end.
Definition lift {A} (r : result A) : M A := fun self => (r, self).

Notation "'let!' x ':=' m 'in' k" := (bind m (fun x => k))
  (at level 10, x name, m at level 100, k at level 200, only parsing).

Section WithOwner.
Context `{Owner}.

Definition _sort (self : t) : t :=
  let self :=
    if decide (_is_sorted self = Unresolved)
    then {| _values := _values self; _ordered_values := _ordered_values self;
            _is_sorted := ordering self; _domain := _domain self |}
    else self in
  if decide (_is_sorted self = _SortNeeded)
  then
    let sorted := sorted_robust (_ordered_values self) in
    {| _values := dict_of (enumerate sorted); _ordered_values := sorted;
       _is_sorted := _Sorted; _domain := _domain self |}
  else self.

(** [if self._is_sorted not in self._DataOK: self._sort()] *)
Definition sort_if_needed (self : t) : t :=
  if _DataOK (_is_sorted self) then self else _sort self.

Definition __iter__ (self : t) : list value * t :=
  let self := sort_if_needed self in
  (_ordered_values self, self).

Definition len : M Z := fun self => (Ok (Z.of_nat (__len__ self)), self).

Definition __getitem__ (item : Z) : M value := fun self =>
  let self := sort_if_needed self in
  if item >=? 1 then
    if item >? Z.of_nat (__len__ self)
    then (Raise (IndexError PastLastElement), self)
    else (list_getitem (_ordered_values self) (item - 1), self)
  else if item <? 0 then
    if Z.of_nat (__len__ self) + item <? 0
    then (Raise (IndexError BeforeFirstElement), self)
    else (list_getitem (_ordered_values self) item, self)
  else (Raise (IndexError InvalidIndex), self).

Definition ord (item : value) : M Z := fun self =>
  let self := sort_if_needed self in
  match _values self !! item with
  | Some i => (Ok (Z.of_nat i + 1), self)
  | None => (Raise (IndexError ItemNotInSet), self)
  end.

Definition first : M value := __getitem__ 1.

Definition last : M value := let! n := len in __getitem__ n.

Definition next (item : value) (step : Z) : M value :=
  let! position := ord item in
  __getitem__ (position + step).

Definition nextw (item : value) (step : Z) : M value :=
  let! position := ord item in
  let! n := len in
  let! i := lift (py_mod (position + step - 1) n) in
  __getitem__ (i + 1).

Definition prev (item : value) (step : Z) : M value := next item (- step).

Definition prevw (item : value) (step : Z) : M value := nextw item (- step).

End WithOwner.

(** The invariant of the data: no element is stored twice and the
    dictionary maps every element to its index in the sequence. *)
Definition wf (self : t) : Prop :=
  NoDup (_ordered_values self)
  ∧ _values self = dict_of (enumerate (_ordered_values self)).

#[global] Instance wf_dec self : Decision (wf self).
Proof. unfold wf. apply _. Defined.

(** The element at the 1-based position [p] of a sequence. *)
Definition at_position (l : list value) (p : Z) : option value :=
  if p <? 1 then None else l !! Z.to_nat (p - 1).

(** The element at position [p] counted from the end, the last being the
    first. *)
Definition from_end (l : list value) (p : Z) : option value :=
  at_position (reverse l) p.

End OrderedSetData.

(** ** [_SetData]: the methods shared by all sets *)

Module SetData.

Section Generic.
Context {Range : Type} `{RangeAPI Range}.

(** The methods of [_SetData] reach their operands through five methods
    only, which the derived classes override or lack.  A set object is the
    record of what these answer: [__len__] gives [None] or a number,
    [__iter__] the sequence that iterating the object yields, and a method
    that the class of the object lacks raises.  [ident] is the identity of
    the object, which [is] compares. *)
Record obj : Type := Obj {
  ident : nat;
  is_finite : bool;
  __contains__ : value → result bool;
  __len__ : result (option nat);
  __iter__ : result (list value);
  ranges : result (list Range)
}.

(** The built-in [len(x)] refuses a [__len__] that gives no integer. *)
Definition len (x : obj) : result nat :=
  let? n := __len__ x in
  match n with
  | Some n => Ok n
  | None => Raise TypeError
  end.

(** [for x in xs: if x not in other: return False] and then [return True] *)
Fixpoint all_in (other : obj) (xs : list value) : result bool :=
  match xs with
  | [] => Ok true
  | x :: xs =>
      let? b := __contains__ other x in
      if b then all_in other xs else Ok false
  end.

(** [for x in xs: if x in other: return False] and then [return True] *)
Fixpoint none_in (other : obj) (xs : list value) : result bool :=
  match xs with
  | [] => Ok true
  | x :: xs =>
      let? b := __contains__ other x in
      if b then Ok false else none_in other xs
  end.

(** [rs == ss] on two tuples of ranges: the same length and equal
    elements, position by position. *)
Fixpoint tuple_eq (rs ss : list Range) : bool :=
  match rs, ss with
  | [], [] => true
  | r :: rs, s :: ss => range_eq r s && tuple_eq rs ss
  | _, _ => false
  end.

(** [__eq__], for [other] a set object. *)
Definition __eq__ (self other : obj) : result bool :=
  if (ident self =? ident other)%nat then Ok true else
  let other_is_finite := is_finite other in
  if is_finite self then
    if negb other_is_finite then Ok false
    else
      let? n := len self in
      let? m := len other in
      if negb (n =? m)%nat then Ok false
      else
        let? xs := __iter__ self in
        all_in other xs
  else if other_is_finite then Ok false
  else
    let? rs := ranges self in
    let? ss := ranges other in
    Ok (tuple_eq rs ss).

(** [isdisjoint], for [other] a set object.  The value is [Some b] for a
    Boolean and [None] for Python's [None], which a method returns when it
    reaches its end without a [return].  In the last branch the generator
    asks [other.ranges()] once for every range of [self]. *)
Definition isdisjoint (self other : obj) : result (option bool) :=
  let other_is_finite := is_finite other in
  if is_finite self then
    let? xs := __iter__ self in
    let? b := none_in other xs in
    Ok (Some b)
  else if other_is_finite then
    let? xs := __iter__ other in
    let? b := none_in self xs in
    Ok (Some b)
  else
    let? rs := ranges self in
    let? ss := match rs with [] => Ok [] | _ => ranges other end in
    let _all := forallb (fun r => forallb (range_isdisjoint r) ss) rs in
    Ok None.

(** [for r in rs: if not any(r.issubset(s) for s in other.ranges()):
    return False] and then [return True] *)
Fixpoint each_within (other : obj) (rs : list Range) : result bool :=
  match rs with
  | [] => Ok true
  | r :: rs =>
      let? ss := ranges other in
      if existsb (range_issubset r) ss then each_within other rs else Ok false
  end.

Definition issubset (self other : obj) : result bool :=
  let other_is_finite := is_finite other in
  if is_finite self then
    let? xs := __iter__ self in
    all_in other xs
  else if other_is_finite then Ok false
  else
    let? rs := ranges self in
    each_within other rs.

(** [for r in rs: if not any(s.issubset(r) for s in other.ranges()):
    return False] and then [return True] *)
Fixpoint each_holds (other : obj) (rs : list Range) : result bool :=
  match rs with
  | [] => Ok true
  | r :: rs =>
      let? ss := ranges other in
      if existsb (fun s => range_issubset s r) ss
      then each_holds other rs else Ok false
  end.

Definition issuperset (self other : obj) : result bool :=
  let other_is_finite := is_finite other in
  if other_is_finite then
    let? xs := __iter__ other in
    all_in self xs
  else if is_finite self then Ok false
  else
    let? rs := ranges self in
    each_holds other rs.

(** *** The objects of the classes of [set.py] *)

(** An [_InfiniteSet] object over a tuple of ranges: [__contains__] and [ranges] are its own,
    [is_finite] and [__len__] are those of [_SetData], and there is no
    [__iter__]. *)
Definition InfiniteSet (id : nat) (_ranges : list Range) : obj :=
  {| ident := id;
     is_finite := Classes.is_finite Classes._InfiniteSet;
     __contains__ := fun val => Ok (existsb (fun r => range_contains r val) _ranges);
     __len__ := Ok None;
     __iter__ := Raise TypeError;
     ranges := Ok _ranges |}.

(** A [_FiniteSetData] object: [__contains__], [__len__] and [__iter__]
    are its own, it has no method [ranges], and its [is_finite] is the one
    that the resolution order of the class finds, which is the method of
    [_SetData] and not the one of the mixin ([_SetData] is the first
    base). *)
Definition FiniteSet (id : nat) (d : FiniteSetData.t) : obj :=
  {| ident := id;
     is_finite := Classes.is_finite Classes._FiniteSetData;
     __contains__ := fun item => Ok (FiniteSetData.__contains__ d item);
     __len__ := Ok (Some (FiniteSetData.__len__ d));
     __iter__ := Ok (FiniteSetData.__iter__ d);
     ranges := Raise AttributeError |}.

(** An [_OrderedSetData] object.  Iterating it resolves its order first;
    the record keeps the sequence that is yielded. *)
Definition OrderedSet `{OrderedSetData.Owner}
    (id : nat) (d : OrderedSetData.t) : obj :=
  {| ident := id;
     is_finite := Classes.is_finite Classes._OrderedSetData;
     __contains__ := fun item => Ok (OrderedSetData.__contains__ d item);
     __len__ := Ok (Some (OrderedSetData.__len__ d));
     __iter__ := Ok (OrderedSetData.__iter__ d).1;
     ranges := Raise AttributeError |}.

(** *** Composed sets *)

(** Modelled from the spec: [_SetUnion], the class of the set that [union]
    builds, which [set.py] names and does not define.  A composed set
    refers to its two operands and its finiteness is a function of theirs:
    a union is finite iff its left and its right operand are (section
    4.5). *)
Inductive set : Type :=
| Plain (s : obj)
| _SetUnion (set0 set1 : set).

Fixpoint set_is_finite (s : set) : bool :=
  match s with
  | Plain o => is_finite o
  | _SetUnion l r => set_is_finite l && set_is_finite r
  end.

(** [union(self, *args)]: [tmp = self], then [tmp = _SetUnion(tmp, arg)]
    for every argument in turn. *)
Definition union (self : set) (args : list set) : set :=
  fold_left (fun tmp arg => _SetUnion tmp arg) args self.

End Generic.

Arguments obj Range : clear implicits.
Arguments set Range : clear implicits.

End SetData.

(** ** Instances for the examples *)

(** Modelled from the spec: [_InfiniteRange], which [set.py] names and does
    not define: a contiguous interval of values, bounded or unbounded, with
    a membership test (section 2).  The intervals here are over the
    integers; [None] is a missing bound. *)
Module Interval.

Record t : Type := Build {
  lower : option Z;
  upper : option Z
}.

#[global] Instance t_eq_dec : EqDecision t.
Proof. solve_decision. Defined.

Definition above (lo : option Z) (z : Z) : bool :=
  match lo with Some a => a <=? z | None => true end.

Definition below (hi : option Z) (z : Z) : bool :=
  match hi with Some b => z <=? b | None => true end.

Definition contains (r : t) (v : value) : bool :=
  match v with
  | VInt z => above (lower r) z && below (upper r) z
  | _ => false
  end.

Definition isdisjoint (r s : t) : bool :=
  match upper r, lower s, upper s, lower r with
  | Some b, Some c, _, _ => if b <? c then true else
      match upper s, lower r with Some d, Some a => d <? a | _, _ => false end
  | _, _, Some d, Some a => d <? a
  | _, _, _, _ => false
  end.

Definition issubset (r s : t) : bool :=
  match lower s with
  | None => true
  | Some c => match lower r with Some a => c <=? a | None => false end
  end
  &&
  match upper s with
  | None => true
  | Some d => match upper r with Some b => b <=? d | None => false end
  end.

#[global] Instance api : RangeAPI t := {|
  range_contains := contains;
  range_isdisjoint := isdisjoint;
  range_issubset := issubset;
  range_eq := fun r s => bool_decide (r = s)
|}.

(** The intervals from 0 upwards and from -1 downwards. *)
Definition nonnegative : t := {| lower := Some 0; upper := None |}.
Definition negative : t := {| lower := None; upper := Some (-1) |}.

End Interval.

Module Examples.

Import OrderedSetData.

(** An order on values for the examples: integers by size, strings by the
    alphabet, integers before strings before tuples. *)
Definition value_leb (x y : value) : bool :=
  match x, y with
  | VInt a, VInt b => a <=? b
  | VStr a, VStr b => String.leb a b
  | VInt _, _ => true
  | VStr _, VTuple _ => true
  | VTuple _, VTuple _ => (encode x <=? encode y)%positive
  | _, _ => false
  end.

Definition sort_values : list value → list value :=
  merge_sort (fun x y => Is_true (value_leb x y)).

(** An owner that keeps the order of insertion, and one that asks for the
    sorted order. *)
Definition by_insertion : Owner :=
  {| sorted_robust := sort_values; ordering := fun _ => _InsertionOrder |}.

Definition by_sorting : Owner :=
  {| sorted_robust := sort_values; ordering := fun _ => _SortNeeded |}.

(** The ordered set that holds the given values, added one after the
    other to a new set. *)
Definition ordered_of (vs : list value) : OrderedSetData.t :=
  fold_left (fun self v => state (OrderedSetData.add self v)) vs
            OrderedSetData.__init__.

Definition finite_of (dom : option domain) (vs : list value) : FiniteSetData.t :=
  fold_left (fun self v => state (FiniteSetData.add self v)) vs
            (FiniteSetData.__init__ dom).

Definition abc : OrderedSetData.t := ordered_of [VStr "a"; VStr "b"; VStr "c"].

(** A set object that answers [True] to [is_finite()], as the object of a
    class does that overrides the method of [_SetData], and that holds the
    given values. *)
Definition finite_object {Range : Type} (id : nat) (vs : list value)
    : SetData.obj Range :=
  {| SetData.ident := id;
     SetData.is_finite := true;
     SetData.__contains__ := fun item => Ok (bool_decide (item ∈ vs));
     SetData.__len__ := Ok (Some (length (remove_dups vs)));
     SetData.__iter__ := Ok (remove_dups vs);
     SetData.ranges := Raise AttributeError |}.

(** The domain that holds the tuple (1, 2, 3) and nothing else. *)
Definition only_123 : domain :=
  fun v => bool_decide (v = VTuple [VInt 1; VInt 2; VInt 3]).

(** The ordered set of "a", "b", "c" with the domain {(1, 2, 3)} assigned
    to it. *)
Definition abc_restricted : OrderedSetData.t :=
  {| OrderedSetData._values := OrderedSetData._values abc;
     OrderedSetData._ordered_values := OrderedSetData._ordered_values abc;
     OrderedSetData._is_sorted := OrderedSetData._is_sorted abc;
     OrderedSetData._domain := Some only_123 |}.

(** The finite set {0, 5}, the infinite sets over [0, +oo) and over
    (-oo, -1]. *)
Definition zero_five : SetData.obj Interval.t :=
  SetData.FiniteSet 1 (finite_of None [VInt 0; VInt 5]).
Definition from_zero : SetData.obj Interval.t :=
  SetData.InfiniteSet 2 [Interval.nonnegative].
Definition below_zero : SetData.obj Interval.t :=
  SetData.InfiniteSet 3 [Interval.negative].

End Examples.

(** ** Strict comparisons and operands that are not sets *)

Module Comparisons.

Section WithRange.
Context {Range : Type} `{RangeAPI Range}.
Import SetData.

(** [__lt__]: [self <= other and not self == other], where [<=] is
    [issubset]; [and] gives its left operand when that is false. *)
Definition __lt__ (self other : obj Range) : result bool :=
  let? le := issubset self other in
  if le then (let? e := __eq__ self other in Ok (negb e)) else Ok false.

(** [__gt__]: [self >= other and not self == other], where [>=] is
    [issuperset]. *)
Definition __gt__ (self other : obj Range) : result bool :=
  let? ge := issuperset self other in
  if ge then (let? e := __eq__ self other in Ok (negb e)) else Ok false.

(** The right operand of a comparison when it is a plain collection of
    hashable values and no [_SetData]: the methods then take
    [other_is_finite = True] and go on with [set(other)], a Python set,
    which has no ranges. *)
Definition PlainCollection (id : nat) (vs : list value) : obj Range :=
  let s : gset value := list_to_set vs in
  {| ident := id;
     is_finite := true;
     __contains__ := fun x => Ok (bool_decide (x ∈ s));
     __len__ := Ok (Some (size s));
     __iter__ := Ok (elements s);
     ranges := Raise AttributeError |}.

(** The objects of the two finite data classes. *)
Definition finite_data_object `{OrderedSetData.Owner} (S : obj Range) : Prop :=
  (∃ id d, S = FiniteSet id d) ∨ (∃ id d, S = OrderedSet id d).

End WithRange.

End Comparisons.

(** The distinct elements of a list in the order of their first
    occurrence. *)
Definition first_occurrences (l : list value) : list value :=
  reverse (remove_dups (reverse l)).

(** * Properties *)

(** ** Values and classes *)

Section ValueAndClassFacts.
Import Classes.

Example flatten_tuple_nested :
  flatten_tuple (VTuple [VInt 1; VTuple [VInt 2; VInt 3]])
  = VTuple [VInt 1; VInt 2; VInt 3].
Proof. reflexivity. Qed.

Example flatten_tuple_atom : flatten_tuple (VStr "a") = VStr "a".
Proof. reflexivity. Qed.

Example mro_FiniteSetData :
  mro _FiniteSetData
  = [_FiniteSetData; _SetData; ComponentData; _FiniteSetMixin; object].
Proof. reflexivity. Qed.

Example mro_OrderedSetData :
  mro _OrderedSetData
  = [_OrderedSetData; _FiniteSetData; _SetData; ComponentData;
     _OrderedSetMixin; _FiniteSetMixin; object].
Proof. reflexivity. Qed.

Example mro_InfiniteSet :
  mro _InfiniteSet = [_InfiniteSet; _SetData; ComponentData; object].
Proof. reflexivity. Qed.

(** [_SetData] stands before [_FiniteSetMixin] among the bases of
    [_FiniteSetData], so its [is_finite] is the one that is found: the
    data classes of this file all answer [False]. *)
Example is_finite_by_class :
  List.map is_finite [_InfiniteSet; _FiniteSetData; _OrderedSetData]
  = [false; false; false].
Proof. reflexivity. Qed.

(** The implementations that the objects of the three data classes run. *)
Example resolved_methods :
  resolve _InfiniteSet m___len__ = Some _SetData
  ∧ resolve _InfiniteSet m___iter__ = None
  ∧ resolve _FiniteSetData m_is_finite = Some _SetData
  ∧ resolve _FiniteSetData m___len__ = Some _FiniteSetData
  ∧ resolve _FiniteSetData m_ranges = None
  ∧ resolve _OrderedSetData m___len__ = Some _FiniteSetData
  ∧ resolve _OrderedSetData m___contains__ = Some _FiniteSetData
  ∧ resolve _OrderedSetData m___iter__ = Some _OrderedSetData.
Proof. by vm_compute. Qed.

End ValueAndClassFacts.

(** ** The dictionary of positions *)

Section DictFacts.
Import OrderedSetData.

Lemma enumerate_snoc l x :
  enumerate (l ++ [x]) = enumerate l ++ [(length l, x)].
Proof.
  unfold enumerate. rewrite imap_app. simpl.
  by rewrite Nat.add_0_r.
Qed.

Lemma dict_of_snoc ps p : dict_of (ps ++ [p]) = <[ p.2 := p.1 ]> (dict_of ps).
Proof. unfold dict_of. by rewrite fold_left_app. Qed.

Lemma dict_enumerate_snoc l x :
  dict_of (enumerate (l ++ [x])) = <[ x := length l ]> (dict_of (enumerate l)).
Proof. by rewrite enumerate_snoc, dict_of_snoc. Qed.

Lemma dict_enumerate_None l x :
  x ∉ l → dict_of (enumerate l) !! x = None.
Proof.
  induction l as [|y l IH] using rev_ind; intros Hx.
  - done.
  - rewrite dict_enumerate_snoc.
    apply not_elem_of_app in Hx as [Hl Hy].
    rewrite lookup_insert_ne; [by apply IH|].
    intros ->. apply Hy. by left.
Qed.

Lemma dict_enumerate_Some l x i :
  NoDup l → dict_of (enumerate l) !! x = Some i ↔ l !! i = Some x.
Proof.
  revert i. induction l as [|y l IH] using rev_ind; intros i Hnd.
  - change (dict_of (enumerate [])) with (∅ : gmap value nat).
    rewrite lookup_empty. split; intro Hl; [done | by destruct i].
  - apply NoDup_app in Hnd as (Hnd & Hfresh & _).
    rewrite dict_enumerate_snoc, lookup_snoc_Some.
    destruct (decide (y = x)) as [->|Hne].
    + rewrite lookup_insert_eq. split.
      * intros [= <-]. by right.
      * intros [[_ Hl]|[-> _]]; [|done].
        exfalso. eapply Hfresh; [by eapply list_elem_of_lookup_2|by left].
    + rewrite lookup_insert_ne by done. rewrite IH by done. split.
      * intros Hl. left. split; [by eapply lookup_lt_Some|done].
      * intros [[_ Hl]|[_ ?]]; [done|congruence].
Qed.

Lemma dict_enumerate_size l :
  NoDup l → size (dict_of (enumerate l)) = length l.
Proof.
  induction l as [|y l IH] using rev_ind; intros Hnd.
  - done.
  - apply NoDup_app in Hnd as (Hnd & Hfresh & _).
    rewrite dict_enumerate_snoc, length_app. simpl.
    rewrite map_size_insert_None.
    + rewrite IH by done. lia.
    + apply dict_enumerate_None. intros Hy.
      eapply Hfresh; [done|by left].
Qed.

Lemma wf_lookup self x i :
  wf self → _values self !! x = Some i ↔ _ordered_values self !! i = Some x.
Proof. intros [Hnd ->]. by apply dict_enumerate_Some. Qed.

Lemma wf_len self : wf self → __len__ self = length (_ordered_values self).
Proof. intros [Hnd Hv]. unfold __len__. rewrite Hv. by apply dict_enumerate_size. Qed.

Lemma wf_absent self x :
  wf self → x ∉ _ordered_values self → _values self !! x = None.
Proof. intros [Hnd ->]. apply dict_enumerate_None. Qed.

End DictFacts.

(** ** The ordered set: invariant, [ord] and [__getitem__] *)

Section OrderedFacts.
Import OrderedSetData.
Context `{Owner}.

Lemma wf_init : wf __init__.
Proof. split; [constructor | done]. Qed.

Lemma wf_add self v : wf self → wf (state (add self v)).
Proof.
  intros Hwf. unfold add.
  destruct (outside_domain _ _); [done|].
  case_bool_decide as Hin; [done|].
  pose proof Hwf as [Hnd Hv]. split; simpl.
  - apply NoDup_app. split_and!; [done| |apply NoDup_singleton].
    intros x Hx ->%list_elem_of_singleton. apply Hin.
    apply list_elem_of_lookup_1 in Hx as [i Hi].
    exists i. by apply wf_lookup.
  - rewrite dict_enumerate_snoc, <- Hv.
    f_equal. by apply wf_len.
Qed.

Lemma wf_sort self :
  wf self → sorted_robust (_ordered_values self) ≡ₚ _ordered_values self →
  wf (_sort self).
Proof.
  intros [Hnd Hv] Hperm. unfold _sort.
  destruct (decide (_is_sorted self = Unresolved)); simpl;
    (case_decide; [split; simpl; [by rewrite Hperm | done] | by split]).
Qed.

Lemma wf_sort_if_needed self :
  wf self → sorted_robust (_ordered_values self) ≡ₚ _ordered_values self →
  wf (sort_if_needed self).
Proof.
  intros Hwf Hperm. unfold sort_if_needed.
  destruct (_DataOK _); [done | by apply wf_sort].
Qed.

(** Every set that is built by adding values to a new set satisfies the
    invariant, and keeps it when its order is resolved by a sort that
    permutes. *)
Lemma wf_ordered_of vs : wf (Examples.ordered_of vs).
Proof.
  unfold Examples.ordered_of. generalize wf_init.
  generalize __init__. induction vs as [|v vs IH]; intros self Hwf; [done|].
  simpl. apply IH. by apply wf_add.
Qed.

Lemma wf_ordered_of_resolved vs :
  (∀ l, sorted_robust l ≡ₚ l) → wf (sort_if_needed (Examples.ordered_of vs)).
Proof. intros Hperm. apply wf_sort_if_needed; [apply wf_ordered_of | done]. Qed.

(** Once the order has been looked at, looking again changes nothing. *)
Lemma sort_if_needed_again self :
  sort_if_needed (sort_if_needed self) = sort_if_needed self.
Proof.
  destruct self as [vs ov st dom].
  destruct st; unfold sort_if_needed, _sort; simpl; try done.
  destruct (ordering _) eqn:Ho; simpl; rewrite ?Ho; simpl; done.
Qed.

Lemma at_position_Some l p x :
  at_position l p = Some x ↔ 1 ≤ p ∧ l !! Z.to_nat (p - 1) = Some x.
Proof.
  unfold at_position. destruct (Z.ltb_spec p 1); split.
  - done.
  - intros [? _]. lia.
  - done.
  - by intros [_ ?].
Qed.

Lemma at_position_bound l p x :
  at_position l p = Some x → 1 ≤ p ≤ Z.of_nat (length l).
Proof.
  intros [Hp Hl%lookup_lt_Some]%at_position_Some. lia.
Qed.

Lemma at_position_is_Some l p :
  1 ≤ p ≤ Z.of_nat (length l) → is_Some (at_position l p).
Proof.
  intros Hp. unfold at_position.
  destruct (Z.ltb_spec p 1); [lia|].
  apply lookup_lt_is_Some. lia.
Qed.

(** Python's negative index and the position counted from the end. *)
Lemma from_end_lookup l p :
  1 ≤ p ≤ Z.of_nat (length l) →
  from_end l p = l !! Z.to_nat (Z.of_nat (length l) - p).
Proof.
  intros Hp. unfold from_end, at_position.
  destruct (Z.ltb_spec p 1); [lia|].
  rewrite reverse_lookup by lia. f_equal. lia.
Qed.

Lemma list_getitem_nonneg l i x :
  0 ≤ i → l !! Z.to_nat i = Some x → list_getitem l i = Ok x.
Proof.
  intros Hi Hl. unfold list_getitem.
  assert ((i <? 0) = false) as E by lia.
  rewrite E. cbv zeta. by rewrite E, Hl.
Qed.

Lemma list_getitem_neg l i x :
  i < 0 → 0 ≤ Z.of_nat (length l) + i →
  l !! Z.to_nat (Z.of_nat (length l) + i) = Some x → list_getitem l i = Ok x.
Proof.
  intros Hi Hn Hl. unfold list_getitem.
  assert ((i <? 0) = true) as E by lia.
  assert ((Z.of_nat (length l) + i <? 0) = false) as E' by lia.
  rewrite E. cbv zeta. by rewrite E', Hl.
Qed.

Lemma ord_member self item p :
  wf (sort_if_needed self) →
  at_position (_ordered_values (sort_if_needed self)) p = Some item →
  ord item self = (Ok p, sort_if_needed self).
Proof.
  intros Hwf [Hp Hl]%at_position_Some. unfold ord.
  apply (wf_lookup _ _ _ Hwf) in Hl. rewrite Hl.
  do 2 f_equal. lia.
Qed.

Lemma ord_absent self item :
  wf (sort_if_needed self) →
  item ∉ _ordered_values (sort_if_needed self) →
  ord item self = (Raise (IndexError ItemNotInSet), sort_if_needed self).
Proof.
  intros Hwf Hno. unfold ord. by rewrite (wf_absent _ _ Hwf Hno).
Qed.

Lemma getitem_forward self i x :
  wf (sort_if_needed self) →
  at_position (_ordered_values (sort_if_needed self)) i = Some x →
  __getitem__ i self = (Ok x, sort_if_needed self).
Proof.
  intros Hwf Hat. pose proof (at_position_bound _ _ _ Hat) as Hb.
  apply at_position_Some in Hat as [_ Hl].
  unfold __getitem__. rewrite (wf_len _ Hwf).
  destruct (Z.geb_spec i 1); [|lia].
  destruct (Z.gtb_spec i (Z.of_nat (length (_ordered_values (sort_if_needed self)))));
    [lia|].
  by rewrite (list_getitem_nonneg _ _ x) by (done || lia).
Qed.

Lemma getitem_backward self i x :
  wf (sort_if_needed self) → i < 0 →
  from_end (_ordered_values (sort_if_needed self)) (- i) = Some x →
  __getitem__ i self = (Ok x, sort_if_needed self).
Proof.
  intros Hwf Hi Hat. pose proof (at_position_bound _ _ _ Hat) as Hb.
  rewrite length_reverse in Hb.
  rewrite from_end_lookup in Hat by done.
  unfold __getitem__. rewrite (wf_len _ Hwf).
  destruct (Z.geb_spec i 1); [lia|].
  destruct (Z.ltb_spec i 0); [|lia].
  destruct (Z.ltb_spec
    (Z.of_nat (length (_ordered_values (sort_if_needed self))) + i) 0); [lia|].
  rewrite (list_getitem_neg _ _ x); [done|done|lia|].
  rewrite <- Hat. f_equal. lia.
Qed.

Lemma getitem_past self i :
  wf (sort_if_needed self) →
  Z.of_nat (length (_ordered_values (sort_if_needed self))) < i → 1 ≤ i →
  __getitem__ i self = (Raise (IndexError PastLastElement), sort_if_needed self).
Proof.
  intros Hwf Hi H1. unfold __getitem__. rewrite (wf_len _ Hwf).
  destruct (Z.geb_spec i 1); [|lia].
  by destruct (Z.gtb_spec i
    (Z.of_nat (length (_ordered_values (sort_if_needed self))))); [|lia].
Qed.

Lemma getitem_before self i :
  wf (sort_if_needed self) →
  i < - Z.of_nat (length (_ordered_values (sort_if_needed self))) →
  __getitem__ i self
  = (Raise (IndexError BeforeFirstElement), sort_if_needed self).
Proof.
  intros Hwf Hi. unfold __getitem__. rewrite (wf_len _ Hwf).
  destruct (Z.geb_spec i 1); [lia|].
  destruct (Z.ltb_spec i 0); [|lia].
  by destruct (Z.ltb_spec
    (Z.of_nat (length (_ordered_values (sort_if_needed self))) + i) 0); [|lia].
Qed.

Lemma getitem_zero self :
  __getitem__ 0 self = (Raise (IndexError InvalidIndex), sort_if_needed self).
Proof. done. Qed.

End OrderedFacts.

(** ** Positional access and the neighbours of an element *)

Section OrderedClaims.
Import OrderedSetData.
Context `{Owner}.

(** C6.  Positional access is 1-based.  For an ordered set of [N]
    elements, [index(i)] with [i >= 1] gives the [i]-th element and fails
    with "past the last element" exactly when [i > N]; with [i < 0] it
    gives the [|i|]-th element from the end and fails with "before the
    first element" exactly when [|i| > N]; [index(0)] always fails with the
    invalid-index error.  The object afterwards is the set with its order
    resolved. *)
Theorem getitem_one_based (self : t) (i : Z) :
  wf (sort_if_needed self) →
  let l := _ordered_values (sort_if_needed self) in
  let N := Z.of_nat (length l) in
  ∃ r, __getitem__ i self = (r, sort_if_needed self) ∧
    (1 ≤ i →
       (r = Raise (IndexError PastLastElement) ↔ N < i) ∧
       (i ≤ N → ∃ x, at_position l i = Some x ∧ r = Ok x)) ∧
    (i < 0 →
       (r = Raise (IndexError BeforeFirstElement) ↔ N < - i) ∧
       (- i ≤ N → ∃ x, from_end l (- i) = Some x ∧ r = Ok x)) ∧
    (i = 0 → r = Raise (IndexError InvalidIndex)).
Proof.
  intros Hwf l N.
  destruct (Z.lt_trichotomy i 0) as [Hneg|[->|Hpos]].
  - destruct (Z.lt_ge_cases N (- i)) as [Hout|Hin].
    + eexists. split; [apply getitem_before; [done|subst N l; lia]|].
      split_and!; try lia. intros _. split; [done|lia].
    + destruct (at_position_is_Some (reverse l) (- i)) as [x Hx].
      { rewrite length_reverse. subst N l. lia. }
      exists (Ok x). split; [by apply getitem_backward|].
      split_and!; try lia. intros _. split; [split; [done|lia]|eauto].
  - eexists. split; [apply getitem_zero|].
    split_and!; try lia. done.
  - destruct (Z.lt_ge_cases N i) as [Hout|Hin].
    + eexists. split; [apply getitem_past; [done|subst N l; lia|lia]|].
      split_and!; try lia. intros _. split; [done|lia].
    + destruct (at_position_is_Some l i) as [x Hx]; [subst N l; lia|].
      exists (Ok x). split; [by apply getitem_forward|].
      split_and!; try lia. intros _. split; [split; [done|lia]|eauto].
Qed.

(** [next] looks the element up and indexes at the position moved by
    [step]; whatever [__getitem__] does with that index, [next] does. *)
Lemma next_member self item step p :
  wf (sort_if_needed self) →
  at_position (_ordered_values (sort_if_needed self)) p = Some item →
  next item step self = __getitem__ (p + step) (sort_if_needed self).
Proof.
  intros Hwf Hat. unfold next, bind. by rewrite (ord_member _ _ p).
Qed.

Lemma next_absent self item step :
  wf (sort_if_needed self) →
  item ∉ _ordered_values (sort_if_needed self) →
  next item step self = (Raise (IndexError ItemNotInSet), sort_if_needed self).
Proof.
  intros Hwf Hno. unfold next, bind. by rewrite ord_absent.
Qed.

(** Inside the set, [next] gives the element at the moved position. *)
Lemma next_inside self item step p x :
  wf (sort_if_needed self) →
  at_position (_ordered_values (sort_if_needed self)) p = Some item →
  at_position (_ordered_values (sort_if_needed self)) (p + step) = Some x →
  next item step self = (Ok x, sort_if_needed self).
Proof.
  intros Hwf Hat Hx. rewrite (next_member _ _ _ p) by done.
  rewrite <- (sort_if_needed_again self) in Hwf, Hx.
  rewrite (getitem_forward _ _ x) by done.
  by rewrite sort_if_needed_again.
Qed.

(** Beyond the last element [next] fails. *)
Lemma next_past self item step p :
  wf (sort_if_needed self) →
  at_position (_ordered_values (sort_if_needed self)) p = Some item →
  Z.of_nat (length (_ordered_values (sort_if_needed self))) < p + step →
  next item step self
  = (Raise (IndexError PastLastElement), sort_if_needed self).
Proof.
  intros Hwf Hat Hx. rewrite (next_member _ _ _ p) by done.
  pose proof (at_position_bound _ _ _ Hat).
  rewrite <- (sort_if_needed_again self) in Hwf, Hx.
  rewrite getitem_past by (done || lia).
  by rewrite sort_if_needed_again.
Qed.

(** A target position below zero is a negative index for [__getitem__],
    which counts from the end: [next] then gives an element and does not
    fail. *)
Lemma next_below_zero self item step p x :
  wf (sort_if_needed self) →
  at_position (_ordered_values (sort_if_needed self)) p = Some item →
  p + step < 0 →
  from_end (_ordered_values (sort_if_needed self)) (- (p + step)) = Some x →
  next item step self = (Ok x, sort_if_needed self).
Proof.
  intros Hwf Hat Hneg Hx. rewrite (next_member _ _ _ p) by done.
  rewrite <- (sort_if_needed_again self) in Hwf, Hx.
  rewrite (getitem_backward _ _ x) by done.
  by rewrite sort_if_needed_again.
Qed.

Lemma nextw_member self item step p x :
  wf (sort_if_needed self) →
  let l := _ordered_values (sort_if_needed self) in
  at_position l p = Some item →
  at_position l ((p + step - 1) mod Z.of_nat (length l) + 1) = Some x →
  nextw item step self = (Ok x, sort_if_needed self).
Proof.
  intros Hwf l Hat Hx. pose proof (at_position_bound _ _ _ Hat) as Hb.
  unfold nextw, bind. rewrite (ord_member _ _ p) by done.
  unfold len, lift, py_mod. rewrite (wf_len _ Hwf). fold l.
  destruct (Z.eqb_spec (Z.of_nat (length l)) 0) as [E|_]; [lia|].
  pose proof (getitem_forward (sort_if_needed self)
    ((p + step - 1) mod Z.of_nat (length l) + 1) x) as Hg.
  rewrite sort_if_needed_again in Hg. by apply Hg.
Qed.

Lemma nextw_absent self item step :
  wf (sort_if_needed self) →
  item ∉ _ordered_values (sort_if_needed self) →
  nextw item step self
  = (Raise (IndexError ItemNotInSet), sort_if_needed self).
Proof.
  intros Hwf Hno. unfold nextw, bind. by rewrite ord_absent.
Qed.

(** C10.  Wrap-around neighbours.  For an ordered set of [N] elements and
    a member [item] at position [p], [nextw(item, step)] is the element at
    position [((p + step - 1) mod N) + 1], and [prevw(item, step)] is
    [nextw(item, -step)]; the element after the last is the first and the
    element before the first is the last; an [item] that is absent fails
    with "item not in Set" and never with an index out of range. *)
Theorem nextw_wraps (self : t) (item : value) (step : Z) :
  wf (sort_if_needed self) →
  let self' := sort_if_needed self in
  let l := _ordered_values self' in
  let N := Z.of_nat (length l) in
  prevw item step self = nextw item (- step) self ∧
  (∀ p, at_position l p = Some item →
     ∃ x, at_position l ((p + step - 1) mod N + 1) = Some x
          ∧ nextw item step self = (Ok x, self')) ∧
  (item ∉ l →
     nextw item step self = (Raise (IndexError ItemNotInSet), self')
     ∧ prevw item step self = (Raise (IndexError ItemNotInSet), self')) ∧
  (from_end l 1 = Some item →
     ∃ x, at_position l 1 = Some x ∧ nextw item 1 self = (Ok x, self')) ∧
  (at_position l 1 = Some item →
     ∃ x, from_end l 1 = Some x ∧ prevw item 1 self = (Ok x, self')).
Proof.
  intros Hwf self' l N.
  assert (Hstep : ∀ p st, at_position l p = Some item →
     ∃ x, at_position l ((p + st - 1) mod N + 1) = Some x
          ∧ nextw item st self = (Ok x, self')).
  { intros p st Hat. pose proof (at_position_bound _ _ _ Hat) as Hb.
    destruct (at_position_is_Some l ((p + st - 1) mod N + 1)) as [x Hx].
    { pose proof (Z.mod_pos_bound (p + st - 1) N). subst N. lia. }
    exists x. split; [done|]. by apply (nextw_member _ _ _ p). }
  assert (Hend : ∀ y, from_end l 1 = Some y ↔ at_position l N = Some y).
  { intros y. destruct (decide (N = 0)) as [E|E].
    - assert (l = []) as -> by (apply length_zero_iff_nil; subst N; lia).
      by rewrite E.
    - rewrite from_end_lookup by (subst N; lia).
      rewrite at_position_Some. fold N. split; [intros ?; split; [lia|done]|].
      by intros [_ ?]. }
  split_and!.
  - done.
  - intros p. apply Hstep.
  - intros Hno. unfold prevw. by rewrite !nextw_absent.
  - intros Hlast%Hend. pose proof (at_position_bound _ _ _ Hlast).
    destruct (Hstep N 1 Hlast) as (x & Hx & Hn).
    exists x. split; [|done].
    replace ((N + 1 - 1) mod N + 1) with 1 in Hx; [done|].
    replace (N + 1 - 1) with (1 * N) by lia.
    rewrite Z.mod_mul by (subst N; lia). done.
  - intros Hhead. pose proof (at_position_bound _ _ _ Hhead).
    destruct (Hstep 1 (-1) Hhead) as (x & Hx & Hn).
    exists x. split; [|done]. apply Hend.
    replace ((1 + -1 - 1) mod N + 1) with N in Hx; [done|].
    replace (1 + -1 - 1) with (N - 1 + (-1) * N) by lia.
    rewrite Z.mod_add by (subst N; lia).
    rewrite Z.mod_small by (subst N; lia). lia.
Qed.

End OrderedClaims.

(** ** The ordered set of "a", "b", "c" *)

Section OrderedExamples.
Import OrderedSetData Examples.
#[local] Existing Instance by_insertion.

Example abc_data :
  _ordered_values abc = [VStr "a"; VStr "b"; VStr "c"]
  ∧ _values abc !! VStr "c" = Some 2%nat
  ∧ _is_sorted abc = Unresolved.
Proof. by vm_compute. Qed.

Example abc_round_trip :
  (ord (VStr "a") abc).1 = Ok 1 ∧ (ord (VStr "b") abc).1 = Ok 2
  ∧ (ord (VStr "c") abc).1 = Ok 3
  ∧ (__getitem__ 1 abc).1 = Ok (VStr "a")
  ∧ (__getitem__ (-1) abc).1 = Ok (VStr "c").
Proof. by vm_compute. Qed.

Example abc_neighbours :
  (next (VStr "b") 1 abc).1 = Ok (VStr "c")
  ∧ (nextw (VStr "c") 1 abc).1 = Ok (VStr "a")
  ∧ (prev (VStr "b") 1 abc).1 = Ok (VStr "a")
  ∧ (next (VStr "c") 1 abc).1 = Raise (IndexError PastLastElement)
  ∧ (prev (VStr "a") 1 abc).1 = Raise (IndexError InvalidIndex).
Proof. by vm_compute. Qed.

(** The sort of the example owners permutes, so every set built with
    them satisfies the invariant once its order is resolved. *)
Lemma sort_values_permutes l : sort_values l ≡ₚ l.
Proof. apply merge_sort_Permutation. Qed.

Lemma wf_by_sorting vs : wf (sort_if_needed (H := by_sorting) (ordered_of vs)).
Proof. apply (wf_ordered_of_resolved (H := by_sorting)), sort_values_permutes. Qed.

(** An owner that sorts: the elements come out in sorted order whatever
    the order of insertion. *)
Example sorted_owner :
  (__iter__ (H := by_sorting) (ordered_of [VStr "b"; VStr "c"; VStr "a"])).1
  = [VStr "a"; VStr "b"; VStr "c"]
  ∧ (ord (H := by_sorting) (VStr "a")
       (ordered_of [VStr "b"; VStr "c"; VStr "a"])).1 = Ok 1.
Proof. by vm_compute. Qed.

(** C6 on the set of "a", "b", "c": the last element, the second, and
    an index past the end. *)
Lemma getitem_one_based_witness :
  wf (sort_if_needed abc)
  ∧ __getitem__ (-1) abc = (Ok (VStr "c"), sort_if_needed abc)
  ∧ __getitem__ 2 abc = (Ok (VStr "b"), sort_if_needed abc)
  ∧ __getitem__ 4 abc = (Raise (IndexError PastLastElement), sort_if_needed abc).
Proof.
  assert (Hwf : wf (sort_if_needed abc)).
  { apply (bool_decide_unpack _). vm_compute. exact I. }
  split; [exact Hwf|]. split_and!.
  - destruct (getitem_one_based abc (-1) Hwf) as (r & -> & _ & Hneg & _).
    destruct (Hneg ltac:(lia)) as [_ Hin].
    destruct Hin as (x & Hx & ->); [by vm_compute|].
    vm_compute in Hx. by injection Hx as <-.
  - destruct (getitem_one_based abc 2 Hwf) as (r & -> & Hpos & _).
    destruct (Hpos ltac:(lia)) as [_ Hin].
    destruct Hin as (x & Hx & ->); [by vm_compute|].
    vm_compute in Hx. by injection Hx as <-.
  - destruct (getitem_one_based abc 4 Hwf) as (r & -> & Hpos & _).
    destruct (Hpos ltac:(lia)) as [Hpast _].
    rewrite (proj2 Hpast); [done|]. by vm_compute.
Defined.

(** C10 on the set of "a", "b", "c": after the last, before the first,
    five steps back from "b", and an element that is absent. *)
Lemma nextw_wraps_witness :
  wf (sort_if_needed abc)
  ∧ nextw (VStr "c") 1 abc = (Ok (VStr "a"), sort_if_needed abc)
  ∧ prevw (VStr "a") 1 abc = (Ok (VStr "c"), sort_if_needed abc)
  ∧ nextw (VStr "b") (-5) abc = (Ok (VStr "c"), sort_if_needed abc)
  ∧ nextw (VStr "z") 1 abc
    = (Raise (IndexError ItemNotInSet), sort_if_needed abc).
Proof.
  assert (Hwf : wf (sort_if_needed abc)).
  { apply (bool_decide_unpack _). vm_compute. exact I. }
  split; [exact Hwf|]. split_and!.
  - destruct (nextw_wraps abc (VStr "c") 1 Hwf) as (_ & _ & _ & Hlast & _).
    destruct Hlast as (x & Hx & ->); [by vm_compute|].
    vm_compute in Hx. by injection Hx as <-.
  - destruct (nextw_wraps abc (VStr "a") 1 Hwf) as (_ & _ & _ & _ & Hfirst).
    destruct Hfirst as (x & Hx & ->); [by vm_compute|].
    vm_compute in Hx. by injection Hx as <-.
  - destruct (nextw_wraps abc (VStr "b") (-5) Hwf) as (_ & Hmember & _).
    destruct (Hmember 2) as (x & Hx & ->); [by vm_compute|].
    vm_compute in Hx. by injection Hx as <-.
  - destruct (nextw_wraps abc (VStr "z") 1 Hwf) as (_ & _ & Habsent & _).
    apply Habsent. apply (bool_decide_unpack _). by vm_compute.
Defined.

(** C5.  The claim holds inside the set and beyond its end, and fails
    before its beginning: the target position of [next("a", -2)], which is
    [prev("a", 2)], is [-1], outside [1 .. 3], and the call gives "c", the
    last element, where the claim and the docstring of [prev] ("the
    previous element is before the beginning of the set, then an
    IndexError is raised") require an [IndexError]. *)
Theorem next_before_the_beginning :
  at_position (_ordered_values (sort_if_needed abc)) 1 = Some (VStr "a")
  ∧ next (VStr "a") (-2) abc = (Ok (VStr "c"), sort_if_needed abc)
  ∧ prev (VStr "a") 2 abc = (Ok (VStr "c"), sort_if_needed abc).
Proof. by vm_compute. Qed.

End OrderedExamples.

(** ** [add] *)

Section AddClaims.
Import Examples.

(** C8, as stated, fails: the domain is asked about the value as it was
    given, before it is flattened.  The set below has the domain
    {(1, 2, 3)} and holds (1, 2, 3); the flat form of (1, (2, 3)) is an
    element of the set, and adding (1, (2, 3)) raises [ValueError]. *)
Lemma add_existing_rejected :
  let S := finite_of (Some only_123) [VTuple [VInt 1; VInt 2; VInt 3]] in
  let v := VTuple [VInt 1; VTuple [VInt 2; VInt 3]] in
  FiniteSetData.__contains__ S (flatten_tuple v) = true
  ∧ ret (FiniteSetData.add S v) = Raise ValueError.
Proof. by vm_compute. Qed.

(** C8, amended.  For a finite or an ordered set [S] and a value [v] that
    the domain of [S] accepts and whose flat form is an element of [S],
    [add(v)] does not raise: it logs one warning and leaves [S] as it was,
    for an ordered set with the same sequence, the same positions and the
    same order state. *)
Theorem add_existing_is_noop (v : value) :
  (∀ S : FiniteSetData.t,
     outside_domain (FiniteSetData._domain S) v = false →
     FiniteSetData.__contains__ S (flatten_tuple v) = true →
     FiniteSetData.add S v
     = Outcome (Ok tt) S [Warning_already_exists (flatten_tuple v)])
  ∧
  (∀ S : OrderedSetData.t,
     outside_domain (OrderedSetData._domain S) v = false →
     OrderedSetData.__contains__ S (flatten_tuple v) = true →
     OrderedSetData.add S v
     = Outcome (Ok tt) S [Warning_already_exists (flatten_tuple v)]).
Proof.
  split; intros S Hdom Hin.
  - unfold FiniteSetData.add, FiniteSetData.__contains__ in *.
    rewrite Hdom, Hin. apply bool_decide_eq_true in Hin.
    destruct S as [vs dom]; simpl in *. do 2 f_equal.
    apply subseteq_union_1_L. by apply singleton_subseteq_l.
  - unfold OrderedSetData.add, OrderedSetData.__contains__ in *.
    by rewrite Hdom, Hin.
Qed.

(** C8, amended, on a finite set with the universal domain that holds
    (2, 3), and on the ordered set of "a", "b", "c". *)
Lemma add_existing_is_noop_witness :
  let S := finite_of None [VInt 1; VTuple [VInt 2; VInt 3]] in
  let v := VTuple [VInt 2; VTuple [VInt 3]] in
  outside_domain (FiniteSetData._domain S) v = false
  ∧ FiniteSetData.__contains__ S (flatten_tuple v) = true
  ∧ FiniteSetData.add S v
    = Outcome (Ok tt) S [Warning_already_exists (VTuple [VInt 2; VInt 3])]
  ∧ outside_domain (OrderedSetData._domain abc) (VStr "b") = false
  ∧ OrderedSetData.__contains__ abc (flatten_tuple (VStr "b")) = true
  ∧ OrderedSetData.add abc (VStr "b")
    = Outcome (Ok tt) abc [Warning_already_exists (VStr "b")].
Proof.
  intros S v. split_and!.
  - reflexivity.
  - by vm_compute.
  - apply (proj1 (add_existing_is_noop v));
      [reflexivity | by vm_compute].
  - reflexivity.
  - by vm_compute.
  - apply (proj2 (add_existing_is_noop (VStr "b")));
      [reflexivity | by vm_compute].
Defined.

(** C9.  For a finite or an ordered set [S] with a domain and a value [v]
    that is not in the domain, [add(v)] raises [ValueError] and leaves [S]
    as it was; nothing is logged. *)
Theorem add_outside_domain (v : value) (d : domain) :
  d v = false →
  (∀ S : FiniteSetData.t,
     FiniteSetData._domain S = Some d →
     FiniteSetData.add S v = Outcome (Raise ValueError) S [])
  ∧
  (∀ S : OrderedSetData.t,
     OrderedSetData._domain S = Some d →
     OrderedSetData.add S v = Outcome (Raise ValueError) S []).
Proof.
  intros Hd. split; intros S HS.
  - unfold FiniteSetData.add, outside_domain. by rewrite HS, Hd.
  - unfold OrderedSetData.add, outside_domain. by rewrite HS, Hd.
Qed.

(** C9 on a finite and an ordered set with the domain {(1, 2, 3)}. *)
Lemma add_outside_domain_witness :
  let S := finite_of (Some only_123) [VTuple [VInt 1; VInt 2; VInt 3]] in
  only_123 (VInt 7) = false
  ∧ FiniteSetData._domain S = Some only_123
  ∧ FiniteSetData.add S (VInt 7) = Outcome (Raise ValueError) S []
  ∧ OrderedSetData._domain abc_restricted = Some only_123
  ∧ OrderedSetData.add abc_restricted (VInt 7)
    = Outcome (Raise ValueError) abc_restricted [].
Proof.
  intros S.
  assert (Hd : only_123 (VInt 7) = false) by reflexivity.
  split_and!.
  - exact Hd.
  - reflexivity.
  - apply (proj1 (add_outside_domain (VInt 7) only_123 Hd)). reflexivity.
  - reflexivity.
  - apply (proj2 (add_outside_domain (VInt 7) only_123 Hd)). reflexivity.
Defined.

(** A new element is appended at the next free position, and a sorted set
    is marked for a later sort. *)
Lemma add_new (S : OrderedSetData.t) (v : value) :
  outside_domain (OrderedSetData._domain S) v = false →
  OrderedSetData.__contains__ S (flatten_tuple v) = false →
  let S' := state (OrderedSetData.add S v) in
  OrderedSetData._ordered_values S'
  = OrderedSetData._ordered_values S ++ [flatten_tuple v]
  ∧ OrderedSetData._values S' !! flatten_tuple v
    = Some (OrderedSetData.__len__ S)
  ∧ (OrderedSetData._is_sorted S = OrderedSetData._Sorted →
     OrderedSetData._is_sorted S' = OrderedSetData._SortNeeded).
Proof.
  intros Hdom Hin. unfold OrderedSetData.add, OrderedSetData.__contains__ in *.
  rewrite Hdom, Hin. simpl. split_and!.
  - done.
  - by rewrite lookup_insert_eq.
  - intros ->. done.
Qed.

End AddClaims.

(** ** The comparisons of [_SetData] *)

Section SetDataFacts.
Import SetData.
Context {Range : Type} `{RangeAPI Range}.

Lemma all_in_InfiniteSet id (rs : list Range) xs :
  all_in (InfiniteSet id rs) xs
  = Ok (forallb (fun x => existsb (fun r => range_contains r x) rs) xs).
Proof.
  induction xs as [|x xs IH]; [done|]. simpl.
  destruct (existsb _ rs); [by rewrite IH | done].
Qed.

Lemma tuple_eq_spec (rs ss : list Range) :
  tuple_eq rs ss = true ↔
  length rs = length ss
  ∧ ∀ i r s, rs !! i = Some r → ss !! i = Some s → range_eq r s = true.
Proof.
  revert ss. induction rs as [|r rs IH]; intros [|s ss]; simpl.
  - split; [|done]. intros _. split; [done|]. by intros [|?] ???.
  - split; [done|]. by intros [? _].
  - split; [done|]. by intros [? _].
  - rewrite andb_true_iff, IH. split.
    + intros [Hrs [Hlen Hall]]. split; [by rewrite Hlen|].
      intros [|i] r' s'; simpl; [by intros [= <-] [= <-] | by apply Hall].
    + intros [Hlen Hall]. split_and!.
      * by apply (Hall 0%nat).
      * by injection Hlen.
      * intros i r' s'. apply (Hall (S i)).
Qed.

(** The infinite branch of [isdisjoint] computes its answer and does not
    return it. *)
Lemma isdisjoint_infinite id1 id2 (rs ss : list Range) :
  isdisjoint (InfiniteSet id1 rs) (InfiniteSet id2 ss) = Ok None.
Proof. unfold isdisjoint. simpl. by destruct rs. Qed.

(** The built-in [len] of an infinite set fails, with the [TypeError] of
    Python for a [__len__] that gives no integer. *)
Lemma len_InfiniteSet id (rs : list Range) :
  len (InfiniteSet id rs) = Raise TypeError.
Proof. done. Qed.

(** C1, amended.  For a set [S] that answers [is_finite()] with [True]
    and an infinite set [T], [S.issubset(T)] returns a Boolean, which is
    true exactly when every element of [S] is in some range of [T]. *)
Theorem issubset_finite_in_infinite (S : obj Range) (xs : list value)
    (id : nat) (rs : list Range) :
  is_finite S = true →
  __iter__ S = Ok xs →
  ∃ b, issubset S (InfiniteSet id rs) = Ok b
       ∧ (b = true ↔
          ∀ x, x ∈ xs → ∃ r, r ∈ rs ∧ range_contains r x = true).
Proof.
  intros Hfin Hiter. unfold issubset. rewrite Hfin, Hiter. simpl.
  rewrite all_in_InfiniteSet. eexists. split; [done|].
  rewrite forallb_forall. split.
  - intros Hall x Hx%list_elem_of_In. specialize (Hall x Hx).
    apply existsb_exists in Hall as (r & Hr & Hc).
    exists r. by rewrite list_elem_of_In.
  - intros Hall x Hx%list_elem_of_In.
    destruct (Hall x Hx) as (r & Hr%list_elem_of_In & Hc).
    apply existsb_exists. eauto.
Qed.

(** C3.  [A.union(B)] is the composed set [_SetUnion(A, B)], the fold of
    the operands from the left, and it is finite iff [A] and [B] both
    are. *)
Theorem union_finite_iff (A B : set Range) :
  union A [B] = _SetUnion A B
  ∧ (set_is_finite (union A [B]) = true
     ↔ set_is_finite A = true ∧ set_is_finite B = true).
Proof. split; [done|]. simpl. apply andb_true_iff. Qed.

Lemma union_snoc (A : set Range) args B :
  union A (args ++ [B]) = _SetUnion (union A args) B.
Proof. unfold union. by rewrite fold_left_app. Qed.

(** With more operands the fold nests to the left and the result is
    finite iff every operand is. *)
Lemma union_all_finite (A : set Range) args :
  set_is_finite (union A args)
  = set_is_finite A && forallb set_is_finite args.
Proof.
  induction args as [|B args IH] using rev_ind.
  - simpl. by rewrite andb_true_r.
  - rewrite union_snoc, forallb_app. simpl.
    rewrite IH, andb_true_r. by rewrite andb_assoc.
Qed.

(** C4, amended.  [length()] of an infinite set raises nothing: the method
    that runs is [_SetData.__len__], which returns [None]. *)
Theorem len_of_infinite_is_None (id : nat) (rs : list Range) :
  Classes.resolve Classes._InfiniteSet Classes.m___len__
  = Some Classes._SetData
  ∧ __len__ (InfiniteSet id rs) = Ok None.
Proof. done. Qed.

(** C7, amended.  For infinite sets [S] and [T], [S.equals(T)] is true
    iff they are the same object or their tuples of ranges are equal as
    sequences: the same length and equal ranges position by position.
    Nothing is merged, reordered or normalised. *)
Theorem eq_infinite_compares_sequences (id1 id2 : nat) (rs ss : list Range) :
  __eq__ (InfiniteSet id1 rs) (InfiniteSet id2 ss)
  = Ok ((id1 =? id2)%nat || tuple_eq rs ss)
  ∧ (tuple_eq rs ss = true ↔
     length rs = length ss
     ∧ ∀ i r s, rs !! i = Some r → ss !! i = Some s → range_eq r s = true).
Proof.
  split; [|apply tuple_eq_spec].
  unfold __eq__. simpl. by destruct (id1 =? id2)%nat.
Qed.

End SetDataFacts.

(** ** The comparisons on concrete sets *)

Section SetDataExamples.
Import SetData Examples.

(** C1, as stated, fails: every element of {0, 5} is in [0, +oo), and the
    subset test of {0, 5} against the set over [0, +oo) does not return
    false, neither for the [_FiniteSetData] object nor for an object with
    the same elements that answers [is_finite()] with [True]; for the
    latter it returns true. *)
Lemma issubset_not_always_false :
  (∀ x, x ∈ [VInt 0; VInt 5] → __contains__ from_zero x = Ok true)
  ∧ issubset zero_five from_zero ≠ Ok false
  ∧ issubset (finite_object 1 [VInt 0; VInt 5]) from_zero = Ok true.
Proof.
  split_and!.
  - intros x Hx. repeat (apply elem_of_cons in Hx as [->|Hx]; [done|]).
    by apply elem_of_nil in Hx.
  - by vm_compute.
  - by vm_compute.
Qed.

(** What the method does there: [is_finite()] of a [_FiniteSetData] is the
    one of [_SetData], so the last branch runs and asks the finite set for
    its ranges. *)
Example issubset_finite_class :
  is_finite zero_five = false
  ∧ issubset zero_five from_zero = Raise AttributeError.
Proof. by vm_compute. Qed.

(** C1, amended, on {0, 5} and the set over [0, +oo). *)
Lemma issubset_finite_in_infinite_witness :
  is_finite (finite_object (Range := Interval.t) 1 [VInt 0; VInt 5]) = true
  ∧ __iter__ (finite_object (Range := Interval.t) 1 [VInt 0; VInt 5])
    = Ok [VInt 0; VInt 5]
  ∧ issubset (finite_object 1 [VInt 0; VInt 5]) from_zero = Ok true.
Proof.
  split_and!; [reflexivity | reflexivity |].
  destruct (issubset_finite_in_infinite
              (finite_object 1 [VInt 0; VInt 5]) [VInt 0; VInt 5]
              2 [Interval.nonnegative] eq_refl eq_refl) as (b & Hb & Hiff).
  unfold from_zero. rewrite Hb. f_equal. apply Hiff.
  intros x Hx. exists Interval.nonnegative. split; [by left|].
  repeat (apply elem_of_cons in Hx as [->|Hx]; [done|]).
  by apply elem_of_nil in Hx.
Defined.

Example issubset_finite_outside :
  issubset (finite_object 1 [VInt (-1); VInt 0; VInt 5]) from_zero = Ok false.
Proof. by vm_compute. Qed.

(** C2.  The ranges [0, +oo) and (-oo, -1] are disjoint, and [isdisjoint]
    on the two infinite sets over them returns [None], not [True]: the
    last branch of the method evaluates [all(...)] without [return]. *)
Theorem isdisjoint_infinite_returns_None :
  range_isdisjoint Interval.nonnegative Interval.negative = true
  ∧ isdisjoint from_zero below_zero = Ok None.
Proof. by vm_compute. Qed.

(** C4, as stated, fails: [length()] of the infinite set over [0, +oo)
    raises no exception. *)
Lemma len_of_infinite_no_error :
  ¬ ∃ e, __len__ from_zero = Raise e.
Proof. by intros [e He]. Qed.

(** C7, as stated, fails: the two sets below have the same ranges in
    another order, so their range lists are equal as sets, and they do not
    compare equal. *)
Lemma eq_infinite_order_matters :
  let rs := [Interval.nonnegative; Interval.negative] in
  let ss := [Interval.negative; Interval.nonnegative] in
  (∀ r, r ∈ rs ↔ r ∈ ss)
  ∧ __eq__ (InfiniteSet 2 rs) (InfiniteSet 3 ss) = Ok false.
Proof.
  split; [|by vm_compute].
  intros r. rewrite !elem_of_cons. tauto.
Qed.

(** An infinite operand makes the union infinite. *)
Example union_with_infinite :
  set_is_finite (union (Plain (finite_object 1 [VInt 1])) [Plain from_zero])
  = false
  ∧ set_is_finite (union (Plain (finite_object (Range := Interval.t) 1 [VInt 1]))
                         [Plain (finite_object 4 [VInt 2])]) = true.
Proof. by vm_compute. Qed.

(** A set over [0, +oo) and the finite set {-1, 0, 5}. *)
Example scenario_C :
  __contains__ from_zero (VInt 0) = Ok true
  ∧ __contains__ from_zero (VInt (-1)) = Ok false
  ∧ issuperset from_zero (finite_object 1 [VInt (-1); VInt 0; VInt 5])
    = Ok false.
Proof. by vm_compute. Qed.

End SetDataExamples.

(** * Further properties of the ordered set *)

Section OrderedMore.
Import OrderedSetData.
Context `{Owner}.

Lemma wf_contains self x :
  wf self → __contains__ self x = true ↔ x ∈ _ordered_values self.
Proof.
  intros Hwf. unfold __contains__. rewrite bool_decide_eq_true.
  rewrite list_elem_of_lookup. split.
  - intros [i Hi]. exists i. by apply wf_lookup.
  - intros [i Hi]. exists i. by apply wf_lookup.
Qed.

Lemma sort_if_needed_perm self :
  sorted_robust (_ordered_values self) ≡ₚ _ordered_values self →
  _ordered_values (sort_if_needed self) ≡ₚ _ordered_values self.
Proof.
  intros Hperm. unfold sort_if_needed, _sort.
  destruct (_DataOK _); [done|].
  destruct (decide (_is_sorted self = Unresolved)); simpl;
    by case_decide.
Qed.

Lemma from_end_one l x :
  from_end l 1 = Some x ↔ at_position l (Z.of_nat (length l)) = Some x.
Proof.
  destruct l as [|y l]; [done|].
  rewrite from_end_lookup by (simpl; lia).
  rewrite at_position_Some.
  split; [intros ?; split; [simpl; lia|done] | by intros [_ ?]].
Qed.

(** The lemmas on [__getitem__], for a set whose order is resolved. *)
Lemma getitem_resolved self i :
  wf (sort_if_needed self) →
  let self' := sort_if_needed self in
  let l := _ordered_values self' in
  let N := Z.of_nat (length l) in
  (∀ x, at_position l i = Some x → __getitem__ i self' = (Ok x, self')) ∧
  (∀ x, i < 0 → from_end l (- i) = Some x →
        __getitem__ i self' = (Ok x, self')) ∧
  (1 ≤ i → N < i →
     __getitem__ i self' = (Raise (IndexError PastLastElement), self')) ∧
  (i < - N →
     __getitem__ i self' = (Raise (IndexError BeforeFirstElement), self')).
Proof.
  intros Hwf self' l N.
  pose proof (getitem_forward self') as H1.
  pose proof (getitem_backward self') as H2.
  pose proof (getitem_past self') as H3.
  pose proof (getitem_before self') as H4.
  subst self'. rewrite sort_if_needed_again in H1, H2, H3, H4.
  split_and!; intros; eauto.
Qed.

(** What an index that is accepted has read. *)
Lemma getitem_Ok self i x :
  wf (sort_if_needed self) →
  (__getitem__ i self).1 = Ok x →
  let l := _ordered_values (sort_if_needed self) in
  (1 ≤ i ∧ at_position l i = Some x)
  ∨ (i < 0 ∧ - i ≤ Z.of_nat (length l) ∧ from_end l (- i) = Some x).
Proof.
  intros Hwf Hget l.
  destruct (Z.lt_trichotomy i 0) as [Hneg|[->|Hpos]].
  - right. destruct (Z.lt_ge_cases (Z.of_nat (length l)) (- i)) as [Hout|Hin].
    + rewrite getitem_before in Hget by (done || (subst l; lia)). done.
    + destruct (at_position_is_Some (reverse l) (- i)) as [y Hy].
      { rewrite length_reverse. lia. }
      rewrite (getitem_backward _ _ y) in Hget by done.
      simpl in Hget. injection Hget as <-. done.
  - by rewrite getitem_zero in Hget.
  - left. destruct (Z.lt_ge_cases (Z.of_nat (length l)) i) as [Hout|Hin].
    + rewrite getitem_past in Hget by (done || lia). done.
    + destruct (at_position_is_Some l i) as [y Hy]; [lia|].
      rewrite (getitem_forward _ _ y) in Hget by done.
      simpl in Hget. injection Hget as <-. split; [lia|done].
Qed.

(** X1.  [ord] and positional access are inverse to each other: the
    position that [ord] gives for an element indexes that element, and the
    element read at a positive index [i] has position [i]; the element
    read at a negative index [i] has position [N + i + 1]. *)
Theorem ord_getitem_round_trip (self : t) :
  wf (sort_if_needed self) →
  let self' := sort_if_needed self in
  let N := Z.of_nat (length (_ordered_values self')) in
  (∀ item p, (ord item self).1 = Ok p →
     __getitem__ p self = (Ok item, self')) ∧
  (∀ i x, (__getitem__ i self).1 = Ok x → 1 ≤ i →
     ord x self = (Ok i, self')) ∧
  (∀ i x, (__getitem__ i self).1 = Ok x → i < 0 →
     ord x self = (Ok (N + i + 1), self')).
Proof.
  intros Hwf self' N. split_and!.
  - intros item p Hord. unfold ord in Hord.
    destruct (_values (sort_if_needed self) !! item) as [n|] eqn:Hn;
      simpl in Hord; [|done].
    injection Hord as <-. apply (wf_lookup _ _ _ Hwf) in Hn.
    apply getitem_forward; [done|].
    apply at_position_Some. split; [lia|].
    rewrite <- Hn. f_equal. lia.
  - intros i x Hget Hi.
    destruct (getitem_Ok _ _ _ Hwf Hget) as [[_ Hat]|[? _]]; [|lia].
    by apply ord_member.
  - intros i x Hget Hi.
    destruct (getitem_Ok _ _ _ Hwf Hget) as [[? _]|(_ & Hin & Hat)]; [lia|].
    apply ord_member; [done|].
    rewrite from_end_lookup in Hat by lia.
    apply at_position_Some. subst N self'. split; [lia|].
    rewrite <- Hat. f_equal. lia.
Qed.

(** X2.  [ord] never answers with a sentinel: for an element of the set
    it gives its position, between 1 and [N]; for anything else it raises
    the [IndexError] "item not in Set". *)
Theorem ord_position_or_error (self : t) (item : value) :
  wf (sort_if_needed self) →
  let self' := sort_if_needed self in
  let l := _ordered_values self' in
  (item ∈ l ∧ (∃ p, 1 ≤ p ≤ Z.of_nat (length l)
                    ∧ at_position l p = Some item
                    ∧ ord item self = (Ok p, self')))
  ∨ ((item ∉ l) ∧ ord item self = (Raise (IndexError ItemNotInSet), self')).
Proof.
  intros Hwf self' l.
  destruct (decide (item ∈ l)) as [Hin|Hno].
  - left. split; [done|].
    apply list_elem_of_lookup_1 in Hin as [n Hn].
    pose proof (lookup_lt_Some _ _ _ Hn).
    assert (at_position l (Z.of_nat n + 1) = Some item) as Hat.
    { apply at_position_Some. split; [lia|].
      rewrite <- Hn. f_equal. lia. }
    exists (Z.of_nat n + 1). split_and!; [lia|lia|done|by apply ord_member].
  - right. split; [done|]. by apply ord_absent.
Qed.

(** X3.  What [next] returns, for every step: the element at the target
    position [p + step] when that is between 1 and [N]; "past the last
    element" above [N]; the invalid-index error at 0; the element counted
    from the end when the target is between [-N] and [-1]; "before the
    first element" below [-N]. *)
Theorem next_by_target (self : t) (item : value) (p step : Z) :
  wf (sort_if_needed self) →
  at_position (_ordered_values (sort_if_needed self)) p = Some item →
  let self' := sort_if_needed self in
  let l := _ordered_values self' in
  let N := Z.of_nat (length l) in
  let target := p + step in
  (1 ≤ target ≤ N →
     ∃ x, at_position l target = Some x ∧ next item step self = (Ok x, self')) ∧
  (N < target →
     next item step self = (Raise (IndexError PastLastElement), self')) ∧
  (target = 0 →
     next item step self = (Raise (IndexError InvalidIndex), self')) ∧
  (- N ≤ target < 0 →
     ∃ x, from_end l (- target) = Some x
          ∧ next item step self = (Ok x, self')) ∧
  (target < - N →
     next item step self = (Raise (IndexError BeforeFirstElement), self')).
Proof.
  intros Hwf Hat self' l N target.
  pose proof (at_position_bound _ _ _ Hat) as Hb.
  rewrite (next_member _ _ _ p) by done. fold self' target.
  destruct (getitem_resolved self target Hwf) as (Hf & Hb' & Hp & Hbf).
  split_and!.
  - intros Ht. destruct (at_position_is_Some l target Ht) as [x Hx].
    exists x. split; [done|]. by apply Hf.
  - intros Ht. apply Hp; [lia|done].
  - intros ->. subst self'. rewrite getitem_zero.
    by rewrite sort_if_needed_again.
  - intros Ht. destruct (at_position_is_Some (reverse l) (- target)) as [x Hx].
    { rewrite length_reverse. fold N. lia. }
    exists x. split; [done|]. apply Hb'; [lia|done].
  - intros Ht. by apply Hbf.
Qed.

(** X4.  [prev] undoes [next]: when the target of [next(item, step)] is
    inside the set, [prev] with the same step leads back from the element
    reached to [item]. *)
Theorem prev_undoes_next (self : t) (item : value) (p step : Z) :
  wf (sort_if_needed self) →
  at_position (_ordered_values (sort_if_needed self)) p = Some item →
  1 ≤ p + step ≤ Z.of_nat (length (_ordered_values (sort_if_needed self))) →
  ∃ x, next item step self = (Ok x, sort_if_needed self)
       ∧ prev x step (sort_if_needed self) = (Ok item, sort_if_needed self).
Proof.
  intros Hwf Hat Ht.
  destruct (at_position_is_Some _ _ Ht) as [x Hx].
  exists x. split; [by apply (next_inside _ _ _ p)|].
  unfold prev.
  pose proof (next_inside (sort_if_needed self) x (- step) (p + step) item) as Hn.
  rewrite sort_if_needed_again in Hn. apply Hn; [done|done|].
  by replace (p + step + - step) with p by lia.
Qed.

(** X5.  [prevw] undoes [nextw] for every step, and [nextw] has period
    [N]: [N] steps more lead to the same element. *)
Theorem prevw_undoes_nextw (self : t) (item : value) (p step : Z) :
  wf (sort_if_needed self) →
  at_position (_ordered_values (sort_if_needed self)) p = Some item →
  let self' := sort_if_needed self in
  let N := Z.of_nat (length (_ordered_values self')) in
  ∃ x, nextw item step self = (Ok x, self')
       ∧ prevw x step self' = (Ok item, self')
       ∧ nextw item (step + N) self = (Ok x, self').
Proof.
  intros Hwf Hat self' N.
  pose proof (at_position_bound _ _ _ Hat) as Hb. fold self' N in Hb.
  pose proof (Z.mod_pos_bound (p + step - 1) N ltac:(lia)) as Hm.
  destruct (at_position_is_Some (_ordered_values self')
              ((p + step - 1) mod N + 1)) as [x Hx]; [fold N; lia|].
  exists x. split_and!.
  - by apply (nextw_member _ _ _ p).
  - unfold prevw.
    pose proof (nextw_member self' x (- step) ((p + step - 1) mod N + 1) item)
      as Hn.
    subst self'. rewrite sort_if_needed_again in Hn. apply Hn; [done|done|].
    fold N.
    replace ((p + step - 1) mod N + 1 + - step - 1)
      with ((p + step - 1) mod N - step) by lia.
    rewrite Zminus_mod_idemp_l.
    replace (p + step - 1 - step) with (p - 1) by lia.
    rewrite Z.mod_small by lia.
    by replace (p - 1 + 1) with p by lia.
  - apply (nextw_member _ _ _ p); [done|done|]. fold self' N.
    replace (p + (step + N) - 1) with (p + step - 1 + 1 * N) by lia.
    by rewrite Z.mod_add by lia.
Qed.

End OrderedMore.

(** * Insertion, order resolution and the ends of the set *)

Section OrderedGrowth.
Import OrderedSetData.
Context `{Owner}.

Lemma contains_sort_if_needed self x :
  wf self →
  sorted_robust (_ordered_values self) ≡ₚ _ordered_values self →
  __contains__ (sort_if_needed self) x = __contains__ self x.
Proof.
  intros Hwf Hperm.
  pose proof (wf_sort_if_needed _ Hwf Hperm) as Hwf'.
  apply eq_true_iff_eq. rewrite !wf_contains by done.
  by rewrite (sort_if_needed_perm _ Hperm).
Qed.

Lemma len_sort_if_needed self :
  wf self →
  sorted_robust (_ordered_values self) ≡ₚ _ordered_values self →
  __len__ (sort_if_needed self) = __len__ self.
Proof.
  intros Hwf Hperm.
  pose proof (wf_sort_if_needed _ Hwf Hperm) as Hwf'.
  rewrite !wf_len by done.
  by rewrite (sort_if_needed_perm _ Hperm).
Qed.

(** X6.  Resolving the order neither adds nor loses an element: when the
    sort permutes, membership and length are the same before and after,
    and the invariant is kept. *)
Theorem sort_keeps_elements (self : t) :
  wf self →
  sorted_robust (_ordered_values self) ≡ₚ _ordered_values self →
  wf (sort_if_needed self)
  ∧ (∀ x, __contains__ (sort_if_needed self) x = __contains__ self x)
  ∧ __len__ (sort_if_needed self) = __len__ self
  ∧ _ordered_values (sort_if_needed self) ≡ₚ _ordered_values self.
Proof.
  intros Hwf Hperm. split_and!.
  - by apply wf_sort_if_needed.
  - intros x. by apply contains_sort_if_needed.
  - by apply len_sort_if_needed.
  - by apply sort_if_needed_perm.
Qed.

(** X7.  The ends of the set.  On an empty set [first()] fails with "past
    the last element" and [last()], which indexes at [len(self)], that is
    at 0, fails with the invalid-index error; otherwise they give the
    element at position 1 and the one at position [N]. *)
Theorem first_and_last (self : t) :
  wf self →
  sorted_robust (_ordered_values self) ≡ₚ _ordered_values self →
  let self' := sort_if_needed self in
  let l := _ordered_values self' in
  (l = [] →
     first self = (Raise (IndexError PastLastElement), self')
     ∧ last self = (Raise (IndexError InvalidIndex), self')) ∧
  (∀ x, at_position l 1 = Some x → first self = (Ok x, self')) ∧
  (∀ x, from_end l 1 = Some x → last self = (Ok x, self')).
Proof.
  intros Hwf Hperm self' l.
  pose proof (wf_sort_if_needed _ Hwf Hperm) as Hwf'.
  assert (Hlen : __len__ self = length l).
  { rewrite <- (len_sort_if_needed _ Hwf Hperm). by apply wf_len. }
  split_and!.
  - intros Hnil. split.
    + unfold first. apply getitem_past; [done| |lia].
      fold self' l. rewrite Hnil. simpl. lia.
    + unfold last, bind, len. rewrite Hlen, Hnil. simpl.
      apply getitem_zero.
  - intros x Hx. unfold first. by apply getitem_forward.
  - intros x Hx%from_end_one. unfold last, bind, len. rewrite Hlen.
    by apply getitem_forward.
Qed.

(** X8.  A new element on a set in insertion order: [add] returns without
    a warning, the set is one longer, the new element (in its flat form)
    has the position after the former last, and every other element keeps
    its position. *)
Theorem add_appends (S : t) (v : value) :
  wf S →
  _is_sorted S = _InsertionOrder →
  outside_domain (_domain S) v = false →
  __contains__ S (flatten_tuple v) = false →
  let S' := state (add S v) in
  ret (add S v) = Ok tt ∧ logged (add S v) = [] ∧
  wf S' ∧ __len__ S' = Datatypes.S (__len__ S) ∧
  ord (flatten_tuple v) S' = (Ok (Z.of_nat (__len__ S) + 1), S') ∧
  (∀ x p, ord x S = (Ok p, S) → ord x S' = (Ok p, S')).
Proof.
  intros Hwf Hins Hdom Hnew S'.
  pose proof (wf_add S v Hwf) as Hwf'. fold S' in Hwf'.
  assert (Hadd : add S v
    = Outcome (Ok tt)
        {| _values := <[ flatten_tuple v := size (_values S) ]> (_values S);
           _ordered_values := _ordered_values S ++ [flatten_tuple v];
           _is_sorted := _InsertionOrder;
           _domain := _domain S |} []).
  { unfold add. unfold __contains__ in Hnew.
    by rewrite Hdom, Hnew, Hins. }
  unfold __contains__ in Hnew. apply bool_decide_eq_false in Hnew.
  subst S'. rewrite Hadd in *. simpl in *.
  split_and!; [done|done|done| | |].
  - unfold __len__. simpl. apply map_size_insert_None.
    by apply eq_None_not_Some.
  - unfold ord, sort_if_needed. simpl.
    by rewrite lookup_insert_eq.
  - intros x p. unfold ord, sort_if_needed. rewrite Hins. simpl.
    destruct (_values S !! x) as [n|] eqn:Hx; [|done].
    intros [= <-]. rewrite lookup_insert_ne; [by rewrite Hx|].
    intros <-. apply Hnew. by rewrite Hx.
Qed.

(** X9.  The sort is deferred.  A new element on a sorted set is appended
    and the set is marked [_SortNeeded]; the next access that needs the
    order sorts the sequence, rebuilds the positions and marks the set
    [_Sorted] again, with the old elements and the new one, and nothing
    else, in it. *)
Theorem add_defers_sort (S : t) (v : value) :
  wf S →
  _is_sorted S = _Sorted →
  outside_domain (_domain S) v = false →
  __contains__ S (flatten_tuple v) = false →
  sorted_robust (_ordered_values S ++ [flatten_tuple v])
    ≡ₚ _ordered_values S ++ [flatten_tuple v] →
  let S' := state (add S v) in
  let S'' := sort_if_needed S' in
  _is_sorted S' = _SortNeeded
  ∧ _ordered_values S' = _ordered_values S ++ [flatten_tuple v]
  ∧ _is_sorted S'' = _Sorted
  ∧ _ordered_values S''
    = sorted_robust (_ordered_values S ++ [flatten_tuple v])
  ∧ wf S''
  ∧ __len__ S'' = Datatypes.S (__len__ S)
  ∧ (∀ x, __contains__ S'' x = true
          ↔ x = flatten_tuple v ∨ __contains__ S x = true).
Proof.
  intros Hwf Hsorted Hdom Hnew Hperm S' S''.
  pose proof (wf_add S v Hwf) as Hwf'. fold S' in Hwf'.
  assert (HS' : _ordered_values S' = _ordered_values S ++ [flatten_tuple v]
                ∧ _is_sorted S' = _SortNeeded).
  { subst S'. unfold add. unfold __contains__ in Hnew.
    rewrite Hdom, Hnew. simpl. by rewrite Hsorted. }
  destruct HS' as [Hov Hst].
  assert (Hperm' : sorted_robust (_ordered_values S') ≡ₚ _ordered_values S')
    by by rewrite Hov.
  pose proof (wf_sort_if_needed _ Hwf' Hperm') as Hwf''. fold S'' in Hwf''.
  assert (HS'' : _is_sorted S'' = _Sorted
                 ∧ _ordered_values S'' = sorted_robust (_ordered_values S')).
  { subst S''. unfold sort_if_needed, _sort. rewrite Hst. simpl.
    rewrite Hst. simpl. done. }
  destruct HS'' as [Hst'' Hov''].
  split_and!; [done|done|done|by rewrite Hov'', Hov|done| |].
  - subst S''. rewrite len_sort_if_needed by done.
    rewrite !wf_len by done. rewrite Hov, length_app. simpl. lia.
  - intros x. subst S''. rewrite contains_sort_if_needed by done.
    rewrite !wf_contains by done. rewrite Hov, elem_of_app.
    rewrite list_elem_of_singleton. tauto.
Qed.

End OrderedGrowth.

(** * Building sets with [add] *)

Section AddMore.
Import Examples.

Lemma first_occurrences_snoc l x :
  first_occurrences (l ++ [x])
  = if decide (x ∈ l) then first_occurrences l else first_occurrences l ++ [x].
Proof.
  unfold first_occurrences. rewrite reverse_app. simpl.
  destruct (decide_rel elem_of x (reverse l)) as [Hin|Hno];
    rewrite elem_of_reverse in *.
  - by rewrite decide_True.
  - rewrite decide_False by done. by rewrite reverse_cons.
Qed.

Lemma elem_of_first_occurrences l x : x ∈ first_occurrences l ↔ x ∈ l.
Proof.
  unfold first_occurrences.
  by rewrite elem_of_reverse, elem_of_remove_dups, elem_of_reverse.
Qed.

Lemma ordered_of_snoc vs v :
  ordered_of (vs ++ [v]) = state (OrderedSetData.add (ordered_of vs) v).
Proof. unfold ordered_of. by rewrite fold_left_app. Qed.

(** X10.  Adding a list of values to a new ordered set stores their flat
    forms once each, in the order of their first occurrence; no call
    raises, because the constructor installs the universal domain, and the
    order stays unresolved until it is asked for. *)
Theorem ordered_of_first_occurrences (vs : list value) :
  OrderedSetData._ordered_values (ordered_of vs)
  = first_occurrences (flatten_tuple <$> vs)
  ∧ OrderedSetData.__len__ (ordered_of vs)
    = length (first_occurrences (flatten_tuple <$> vs))
  ∧ OrderedSetData._domain (ordered_of vs) = Some Any
  ∧ OrderedSetData._is_sorted (ordered_of vs) = OrderedSetData.Unresolved
  ∧ ∀ v, ret (OrderedSetData.add (ordered_of vs) v) = Ok tt.
Proof.
  assert (Hmain : OrderedSetData._ordered_values (ordered_of vs)
      = first_occurrences (flatten_tuple <$> vs)
    ∧ OrderedSetData._domain (ordered_of vs) = Some Any
    ∧ OrderedSetData._is_sorted (ordered_of vs) = OrderedSetData.Unresolved).
  { induction vs as [|v vs IH] using rev_ind; [done|].
    destruct IH as (Hov & Hdom & Hst).
    pose proof (wf_ordered_of vs) as Hwf.
    rewrite ordered_of_snoc, fmap_app.
    change (flatten_tuple <$> [v]) with [flatten_tuple v].
    rewrite first_occurrences_snoc.
    unfold OrderedSetData.add, outside_domain. rewrite Hdom. simpl.
    change (bool_decide (is_Some
              (OrderedSetData._values (ordered_of vs) !! flatten_tuple v)))
      with (OrderedSetData.__contains__ (ordered_of vs) (flatten_tuple v)).
    destruct (OrderedSetData.__contains__ _ _) eqn:Hc.
    - apply (wf_contains _ _ Hwf) in Hc.
      rewrite Hov, elem_of_first_occurrences in Hc.
      rewrite decide_True by done. cbn [state]. by split_and!.
    - assert (flatten_tuple v ∉ flatten_tuple <$> vs) as Hno.
      { intros Hin. apply elem_of_first_occurrences in Hin.
        rewrite <- Hov in Hin. apply (wf_contains _ _ Hwf) in Hin.
        congruence. }
      rewrite (decide_False (P := flatten_tuple v ∈ flatten_tuple <$> vs))
        by done.
      cbn [state].
      cbn [OrderedSetData._ordered_values OrderedSetData._domain
           OrderedSetData._is_sorted].
      rewrite Hov, Hst. by split_and!. }
  destruct Hmain as (Hov & Hdom & Hst).
  split_and!; try done.
  - rewrite <- Hov. apply wf_len, wf_ordered_of.
  - intros v. unfold OrderedSetData.add, outside_domain. rewrite Hdom.
    simpl. by destruct (bool_decide _).
Qed.

(** X11.  Values with the same flat form are the same element: after
    [add(v)], adding any [w] that the domain accepts and that flattens to
    the same tuple only logs the warning and changes nothing, in a finite
    set and in an ordered set. *)
Theorem add_same_flat_form (v w : value) :
  flatten_tuple v = flatten_tuple w →
  (∀ S : FiniteSetData.t,
     outside_domain (FiniteSetData._domain S) v = false →
     outside_domain (FiniteSetData._domain S) w = false →
     let S1 := state (FiniteSetData.add S v) in
     FiniteSetData.add S1 w
     = Outcome (Ok tt) S1 [Warning_already_exists (flatten_tuple w)])
  ∧
  (∀ S : OrderedSetData.t,
     outside_domain (OrderedSetData._domain S) v = false →
     outside_domain (OrderedSetData._domain S) w = false →
     let S1 := state (OrderedSetData.add S v) in
     OrderedSetData.add S1 w
     = Outcome (Ok tt) S1 [Warning_already_exists (flatten_tuple w)]).
Proof.
  intros Hflat. split; intros S Hv Hw S1.
  - assert (Hadd : state (FiniteSetData.add S v)
      = {| FiniteSetData._values :=
             {[ flatten_tuple v ]} ∪ FiniteSetData._values S;
           FiniteSetData._domain := FiniteSetData._domain S |}).
    { unfold FiniteSetData.add. by rewrite Hv. }
    subst S1. rewrite Hadd. unfold FiniteSetData.add.
    cbn [FiniteSetData._domain FiniteSetData._values].
    rewrite Hw, <- Hflat.
    rewrite bool_decide_eq_true_2 by set_solver.
    do 2 f_equal. apply subseteq_union_1_L. set_solver.
  - assert (Hin : OrderedSetData.__contains__ S1 (flatten_tuple v) = true
                  ∧ OrderedSetData._domain S1 = OrderedSetData._domain S).
    { subst S1. unfold OrderedSetData.add, OrderedSetData.__contains__.
      rewrite Hv.
      destruct (bool_decide
        (is_Some (OrderedSetData._values S !! flatten_tuple v))) eqn:Hc;
        cbn [state].
      - by rewrite Hc.
      - cbn [OrderedSetData._values OrderedSetData._domain].
        rewrite bool_decide_eq_true_2; [done|].
        rewrite lookup_insert_eq. by eexists. }
    destruct Hin as [Hin Hdom]. unfold OrderedSetData.__contains__ in Hin.
    generalize dependent S1. intros S1 Hin Hdom.
    unfold OrderedSetData.add. by rewrite Hdom, Hw, <- Hflat, Hin.
Qed.

(** X12.  [add] on a finite set, for a value that the domain accepts: it
    returns normally, the elements afterwards are the flat form of the
    value and the elements before, the length grows by one exactly when
    the flat form was not an element, and the domain is kept. *)
Theorem finite_add_membership (S : FiniteSetData.t) (v : value) :
  outside_domain (FiniteSetData._domain S) v = false →
  let S' := state (FiniteSetData.add S v) in
  ret (FiniteSetData.add S v) = Ok tt
  ∧ (∀ x, FiniteSetData.__contains__ S' x = true
          ↔ x = flatten_tuple v ∨ FiniteSetData.__contains__ S x = true)
  ∧ FiniteSetData.__len__ S'
    = (if FiniteSetData.__contains__ S (flatten_tuple v)
       then FiniteSetData.__len__ S
       else Datatypes.S (FiniteSetData.__len__ S))
  ∧ FiniteSetData._domain S' = FiniteSetData._domain S.
Proof.
  intros Hdom S'. subst S'. unfold FiniteSetData.add. rewrite Hdom. simpl.
  unfold FiniteSetData.__contains__, FiniteSetData.__len__. simpl.
  split_and!; [done| | |done].
  - intros x. rewrite !bool_decide_eq_true. set_solver.
  - case_bool_decide as Hin.
    + f_equal. set_solver.
    + rewrite size_union by set_solver. by rewrite size_singleton.
Qed.

(** X13.  Adding a list of values to a new finite set with the default
    domain gives the set of their flat forms: neither the order of the
    calls nor a repetition shows in the result. *)
Theorem finite_of_is_set_of_flat_forms (vs : list value) :
  FiniteSetData._values (finite_of None vs)
  = list_to_set (flatten_tuple <$> vs)
  ∧ FiniteSetData._domain (finite_of None vs) = Some Any.
Proof.
  unfold finite_of.
  induction vs as [|v vs IH] using rev_ind; [done|].
  destruct IH as [Hvs Hdom].
  rewrite fold_left_app, fmap_app, list_to_set_app_L. simpl.
  unfold FiniteSetData.add at 1 3. unfold outside_domain.
  rewrite Hdom. simpl. rewrite Hvs. split; [set_solver|done].
Qed.

End AddMore.

(** * Comparisons: infinite sets, plain collections, finite data *)

Section ComparisonsMore.
Import SetData Comparisons.
Context {Range : Type} `{RangeAPI Range} `{OrderedSetData.Owner}.

Lemma all_in_total (other : obj Range) (f : value → bool) xs :
  (∀ x, __contains__ other x = Ok (f x)) →
  all_in other xs = Ok (forallb f xs).
Proof.
  intros Hf. induction xs as [|x xs IH]; [done|]. simpl.
  rewrite Hf. simpl. by destruct (f x).
Qed.

Lemma none_in_total (other : obj Range) (f : value → bool) xs :
  (∀ x, __contains__ other x = Ok (f x)) →
  none_in other xs = Ok (forallb (fun x => negb (f x)) xs).
Proof.
  intros Hf. induction xs as [|x xs IH]; [done|]. simpl.
  rewrite Hf. simpl. by destruct (f x).
Qed.

Lemma forallb_elements (f : value → bool) (vs : list value) :
  forallb f (elements (list_to_set vs : gset value)) = true
  ↔ ∀ x, x ∈ vs → f x = true.
Proof.
  rewrite forallb_forall. split; intros Hall x Hx.
  - apply Hall, list_elem_of_In, elem_of_elements. set_solver.
  - apply Hall. apply list_elem_of_In, elem_of_elements in Hx. set_solver.
Qed.

Lemma each_within_InfiniteSet id (ss rs : list Range) :
  each_within (InfiniteSet id ss) rs
  = Ok (forallb (fun r => existsb (range_issubset r) ss) rs).
Proof.
  induction rs as [|r rs IH]; [done|]. simpl.
  by destruct (existsb _ ss).
Qed.

Lemma each_holds_InfiniteSet id (ss rs : list Range) :
  each_holds (InfiniteSet id ss) rs
  = Ok (forallb (fun r => existsb (fun s => range_issubset s r) ss) rs).
Proof.
  induction rs as [|r rs IH]; [done|]. simpl.
  by destruct (existsb _ ss).
Qed.

Lemma forallb_existsb_spec {A B} (f : A → B → bool) (l : list A) (k : list B) :
  forallb (fun a => existsb (f a) k) l = true
  ↔ ∀ a, a ∈ l → ∃ b, b ∈ k ∧ f a b = true.
Proof.
  rewrite forallb_forall. split; intros Hall a Ha.
  - apply list_elem_of_In in Ha. apply Hall in Ha.
    apply existsb_exists in Ha as (b & Hb & Hf).
    exists b. by rewrite list_elem_of_In.
  - apply list_elem_of_In in Ha. destruct (Hall a Ha) as (b & Hb & Hf).
    apply existsb_exists. exists b. by rewrite <- list_elem_of_In.
Qed.

(** X14.  An infinite set against a plain collection of values:
    [issuperset] is true exactly when every value of the collection is in
    some range of the set, and [isdisjoint] returns a Boolean that is true
    exactly when no value of the collection is in any range. *)
Theorem infinite_against_collection (id id' : nat) (rs : list Range)
    (vs : list value) :
  ∃ b c,
    issuperset (InfiniteSet id rs) (PlainCollection id' vs) = Ok b
    ∧ (b = true ↔ ∀ x, x ∈ vs → ∃ r, r ∈ rs ∧ range_contains r x = true)
    ∧ isdisjoint (InfiniteSet id rs) (PlainCollection id' vs) = Ok (Some c)
    ∧ (c = true ↔ ∀ x, x ∈ vs → ∀ r, r ∈ rs → range_contains r x = false).
Proof.
  set (f := fun x => existsb (fun r => range_contains r x) rs).
  assert (Hf : ∀ x, __contains__ (InfiniteSet id rs) x = Ok (f x)) by done.
  exists (forallb f (elements (list_to_set vs : gset value))),
         (forallb (fun x => negb (f x)) (elements (list_to_set vs : gset value))).
  split_and!.
  - unfold issuperset. simpl. by apply all_in_total.
  - rewrite forallb_elements. subst f. simpl.
    split; intros Hall x Hx.
    + apply Hall in Hx. apply existsb_exists in Hx as (r & Hr & Hc).
      exists r. by rewrite list_elem_of_In.
    + destruct (Hall x Hx) as (r & Hr & Hc).
      apply existsb_exists. exists r. by rewrite <- list_elem_of_In.
  - unfold isdisjoint. simpl. by rewrite (none_in_total _ f).
  - rewrite forallb_elements. subst f. simpl.
    split; intros Hall x Hx.
    + intros r Hr. apply Hall in Hx. apply negb_true_iff in Hx.
      destruct (range_contains r x) eqn:Hc; [|done].
      assert (existsb (fun r => range_contains r x) rs = true) as Hex; [|congruence].
      apply existsb_exists. exists r. by rewrite <- list_elem_of_In.
    + apply negb_true_iff, not_true_iff_false.
      intros (r & Hr & Hc)%existsb_exists.
      apply list_elem_of_In in Hr. by rewrite (Hall x Hx r Hr) in Hc.
Qed.

(** X15.  An infinite set is never equal to a plain collection and never
    a subset of one. *)
Theorem infinite_never_within_collection (id id' : nat) (rs : list Range)
    (vs : list value) :
  id ≠ id' →
  __eq__ (InfiniteSet id rs) (PlainCollection id' vs) = Ok false
  ∧ issubset (InfiniteSet id rs) (PlainCollection id' vs) = Ok false
  ∧ __lt__ (InfiniteSet id rs) (PlainCollection id' vs) = Ok false.
Proof.
  intros Hid. apply Nat.eqb_neq in Hid.
  unfold __lt__, __eq__, issubset. simpl. by rewrite Hid.
Qed.

(** X16.  A finite or an ordered set against a plain collection of
    values: [issuperset] is true exactly when every value of the
    collection is an element of the set, and [isdisjoint] returns a
    Boolean that is true exactly when none is. *)
Theorem finite_against_collection (id id' : nat) (vs : list value) :
  (∀ d : FiniteSetData.t, ∃ b c,
     issuperset (FiniteSet id d) (PlainCollection id' vs) = Ok b
     ∧ (b = true ↔ ∀ x, x ∈ vs → FiniteSetData.__contains__ d x = true)
     ∧ isdisjoint (FiniteSet id d) (PlainCollection id' vs) = Ok (Some c)
     ∧ (c = true ↔ ∀ x, x ∈ vs → FiniteSetData.__contains__ d x = false))
  ∧
  (∀ d : OrderedSetData.t, ∃ b c,
     issuperset (OrderedSet id d) (PlainCollection id' vs) = Ok b
     ∧ (b = true ↔ ∀ x, x ∈ vs → OrderedSetData.__contains__ d x = true)
     ∧ isdisjoint (OrderedSet id d) (PlainCollection id' vs) = Ok (Some c)
     ∧ (c = true ↔ ∀ x, x ∈ vs → OrderedSetData.__contains__ d x = false)).
Proof.
  split; intros d.
  - set (f := FiniteSetData.__contains__ d).
    exists (forallb f (elements (list_to_set vs : gset value))),
      (forallb (fun x => negb (f x)) (elements (list_to_set vs : gset value))).
    split_and!.
    + unfold issuperset. simpl. by apply all_in_total.
    + apply forallb_elements.
    + unfold isdisjoint. simpl. by rewrite (none_in_total _ f).
    + rewrite forallb_elements. by setoid_rewrite negb_true_iff.
  - set (f := OrderedSetData.__contains__ d).
    exists (forallb f (elements (list_to_set vs : gset value))),
      (forallb (fun x => negb (f x)) (elements (list_to_set vs : gset value))).
    split_and!.
    + unfold issuperset. simpl. by apply all_in_total.
    + apply forallb_elements.
    + unfold isdisjoint. simpl. by rewrite (none_in_total _ f).
    + rewrite forallb_elements. by setoid_rewrite negb_true_iff.
Qed.

End ComparisonsMore.

Section ComparisonsByClass.
Import SetData Comparisons.
Context {Range : Type} `{RangeAPI Range} `{OrderedSetData.Owner}.

Lemma finite_data_object_facts (S : obj Range) :
  finite_data_object S →
  is_finite S = false ∧ ranges S = Raise AttributeError
  ∧ ∃ xs, __iter__ S = Ok xs.
Proof.
  intros [(id & d & ->)|(id & d & ->)]; (split_and!; [done|done|by eexists]).
Qed.

(** X17.  A finite or an ordered set is never equal to a plain collection
    and never a subset of one, whatever their elements: [is_finite()] of
    the two data classes is the method of [_SetData], which answers
    [False], so both methods take the branch for an infinite [self]. *)
Theorem finite_data_never_within_collection (S : obj Range) (id' : nat)
    (vs : list value) :
  finite_data_object S →
  ident S ≠ id' →
  __eq__ S (PlainCollection id' vs) = Ok false
  ∧ issubset S (PlainCollection id' vs) = Ok false.
Proof.
  intros HS Hid. destruct (finite_data_object_facts S HS) as (Hfin & _ & _).
  apply Nat.eqb_neq in Hid.
  unfold __eq__, issubset. simpl. by rewrite Hid, Hfin.
Qed.

(** X18.  Between two distinct objects of the finite data classes every
    comparison raises [AttributeError]: both objects answer [False] to
    [is_finite()], so each method ends in the branch for two infinite sets
    and asks [self] for [ranges()], which these classes do not have. *)
Theorem finite_data_comparisons_raise (S T : obj Range) :
  finite_data_object S →
  finite_data_object T →
  ident S ≠ ident T →
  __eq__ S T = Raise AttributeError
  ∧ issubset S T = Raise AttributeError
  ∧ issuperset S T = Raise AttributeError
  ∧ isdisjoint S T = Raise AttributeError.
Proof.
  intros HS HT Hid.
  destruct (finite_data_object_facts S HS) as (HfS & HrS & _).
  destruct (finite_data_object_facts T HT) as (HfT & _ & _).
  apply Nat.eqb_neq in Hid.
  unfold __eq__, issubset, issuperset, isdisjoint.
  by rewrite Hid, HfS, HfT, HrS.
Qed.

(** X19.  For two infinite sets [issubset] is true exactly when every
    range of [self] is a subset of some range of [other]. *)
Theorem issubset_infinite (id1 id2 : nat) (rs ss : list Range) :
  ∃ b, issubset (InfiniteSet id1 rs) (InfiniteSet id2 ss) = Ok b
       ∧ (b = true ↔
          ∀ r, r ∈ rs → ∃ s, s ∈ ss ∧ range_issubset r s = true).
Proof.
  eexists. split.
  - unfold issubset. simpl. apply each_within_InfiniteSet.
  - apply (forallb_existsb_spec range_issubset).
Qed.

(** X20.  For two infinite sets [issuperset] is true exactly when every
    range of [self] has some range of [other] as a subset.  The loop runs
    over the ranges of [self]; a range of [other] that lies in no range of
    [self] is not looked for. *)
Theorem issuperset_infinite (id1 id2 : nat) (rs ss : list Range) :
  ∃ b, issuperset (InfiniteSet id1 rs) (InfiniteSet id2 ss) = Ok b
       ∧ (b = true ↔
          ∀ r, r ∈ rs → ∃ s, s ∈ ss ∧ range_issubset s r = true).
Proof.
  eexists. split.
  - unfold issuperset. simpl. apply each_holds_InfiniteSet.
  - apply (forallb_existsb_spec (fun r s => range_issubset s r)).
Qed.

(** X21.  The strict comparisons are irreflexive on infinite sets: no
    infinite set is a strict subset or a strict superset of itself,
    whatever its ranges. *)
Theorem strict_irreflexive (id : nat) (rs : list Range) :
  __lt__ (InfiniteSet id rs) (InfiniteSet id rs) = Ok false
  ∧ __gt__ (InfiniteSet id rs) (InfiniteSet id rs) = Ok false.
Proof.
  unfold __lt__, __gt__, issubset, issuperset, __eq__. simpl.
  rewrite each_within_InfiniteSet, each_holds_InfiniteSet. simpl.
  rewrite Nat.eqb_refl. simpl.
  split; by destruct (forallb _ rs).
Qed.

(** X22.  [isdisjoint] gives [None] only for two infinite operands: when
    [self] or [other] is finite, the call returns a Boolean or raises. *)
Theorem isdisjoint_boolean_unless_infinite (S T : obj Range) :
  is_finite S = true ∨ is_finite T = true →
  (∃ b, isdisjoint S T = Ok (Some b)) ∨ (∃ e, isdisjoint S T = Raise e).
Proof.
  intros Hfin. unfold isdisjoint.
  destruct (is_finite S) eqn:HS.
  - destruct (__iter__ S) as [xs|e]; simpl; [|by right; eexists].
    destruct (none_in T xs); simpl; [left|right]; by eexists.
  - destruct Hfin as [?|HT]; [done|]. rewrite HT.
    destruct (__iter__ T) as [xs|e]; simpl; [|by right; eexists].
    destruct (none_in S xs); simpl; [left|right]; by eexists.
Qed.

End ComparisonsByClass.

(** * The further properties on concrete sets *)

Section MoreExamples.
Import OrderedSetData Examples.
#[local] Existing Instance by_insertion.

Lemma wf_abc : wf (sort_if_needed abc).
Proof. apply (bool_decide_unpack _). vm_compute. exact I. Qed.

(** X1 on the set of "a", "b", "c". *)
Lemma ord_getitem_round_trip_witness :
  wf (sort_if_needed abc)
  ∧ __getitem__ 2 abc = (Ok (VStr "b"), sort_if_needed abc)
  ∧ ord (VStr "c") abc = (Ok 3, sort_if_needed abc)
  ∧ ord (VStr "b") abc = (Ok 2, sort_if_needed abc).
Proof.
  assert (Hwf : wf (sort_if_needed abc)).
  { apply (bool_decide_unpack _). vm_compute. exact I. }
  destruct (ord_getitem_round_trip abc Hwf) as (Hog & Hpos & Hneg).
  split_and!.
  - exact Hwf.
  - apply (Hog (VStr "b") 2). reflexivity.
  - apply (Hpos 3 (VStr "c")); [reflexivity | lia].
  - apply (Hneg (-2) (VStr "b")); [reflexivity | lia].
Defined.

(** X2 on the set of "a", "b", "c": a member and a stranger. *)
Lemma ord_position_or_error_witness :
  wf (sort_if_needed abc)
  ∧ ord (VStr "b") abc = (Ok 2, sort_if_needed abc)
  ∧ ord (VInt 7) abc = (Raise (IndexError ItemNotInSet), sort_if_needed abc).
Proof.
  assert (Hwf : wf (sort_if_needed abc)).
  { apply (bool_decide_unpack _). vm_compute. exact I. }
  split_and!.
  - exact Hwf.
  - assert ((ord (VStr "b") abc).1 = Ok 2) as E by reflexivity.
    destruct (ord_position_or_error abc (VStr "b") Hwf)
      as [(_ & p & _ & _ & Hp)|(_ & Hp)]; rewrite Hp in E |- *; simpl in E.
    + by injection E as ->.
    + discriminate E.
  - assert ((ord (VInt 7) abc).1 = Raise (IndexError ItemNotInSet)) as E
      by reflexivity.
    destruct (ord_position_or_error abc (VInt 7) Hwf)
      as [(_ & p & _ & _ & Hp)|(_ & Hp)]; rewrite Hp in E |- *; simpl in E.
    + discriminate E.
    + reflexivity.
Defined.

(** X3 on the set of "a", "b", "c": from "b" one step on, two steps on,
    two steps back, and four steps back. *)
Lemma next_by_target_witness :
  wf (sort_if_needed abc)
  ∧ at_position (_ordered_values (sort_if_needed abc)) 2 = Some (VStr "b")
  ∧ next (VStr "b") 1 abc = (Ok (VStr "c"), sort_if_needed abc)
  ∧ next (VStr "b") 2 abc
    = (Raise (IndexError PastLastElement), sort_if_needed abc)
  ∧ next (VStr "b") (-2) abc
    = (Raise (IndexError InvalidIndex), sort_if_needed abc)
  ∧ next (VStr "b") (-4) abc = (Ok (VStr "b"), sort_if_needed abc).
Proof.
  assert (Hwf : wf (sort_if_needed abc)).
  { apply (bool_decide_unpack _). vm_compute. exact I. }
  assert (Hat : at_position (_ordered_values (sort_if_needed abc)) 2
                = Some (VStr "b")) by reflexivity.
  split_and!; [exact Hwf | exact Hat | | | |].
  - destruct (next_by_target abc (VStr "b") 2 1 Hwf Hat) as (Hin & _).
    destruct Hin as (x & Hx & ->); [by vm_compute|].
    vm_compute in Hx. by injection Hx as <-.
  - destruct (next_by_target abc (VStr "b") 2 2 Hwf Hat) as (_ & Hpast & _).
    apply Hpast. by vm_compute.
  - destruct (next_by_target abc (VStr "b") 2 (-2) Hwf Hat)
      as (_ & _ & Hzero & _).
    by apply Hzero.
  - destruct (next_by_target abc (VStr "b") 2 (-4) Hwf Hat)
      as (_ & _ & _ & Hwrap & _).
    destruct Hwrap as (x & Hx & ->); [by vm_compute|].
    vm_compute in Hx. by injection Hx as <-.
Defined.

(** X4 on the set of "a", "b", "c": two steps on from "a" and back. *)
Lemma prev_undoes_next_witness :
  wf (sort_if_needed abc)
  ∧ at_position (_ordered_values (sort_if_needed abc)) 1 = Some (VStr "a")
  ∧ next (VStr "a") 2 abc = (Ok (VStr "c"), sort_if_needed abc)
  ∧ prev (VStr "c") 2 (sort_if_needed abc)
    = (Ok (VStr "a"), sort_if_needed abc).
Proof.
  assert (Hwf : wf (sort_if_needed abc)).
  { apply (bool_decide_unpack _). vm_compute. exact I. }
  assert (Hat : at_position (_ordered_values (sort_if_needed abc)) 1
                = Some (VStr "a")) by reflexivity.
  destruct (prev_undoes_next abc (VStr "a") 1 2 Hwf Hat) as (x & Hn & Hp).
  { by vm_compute. }
  assert (x = VStr "c") as ->.
  { assert ((next (VStr "a") 2 abc).1 = Ok x) as Hx by by rewrite Hn.
    vm_compute in Hx. by injection Hx. }
  by split_and!.
Defined.

(** X5 on the set of "a", "b", "c": seven steps on from "b" and back. *)
Lemma prevw_undoes_nextw_witness :
  wf (sort_if_needed abc)
  ∧ at_position (_ordered_values (sort_if_needed abc)) 2 = Some (VStr "b")
  ∧ nextw (VStr "b") 7 abc = (Ok (VStr "c"), sort_if_needed abc)
  ∧ prevw (VStr "c") 7 (sort_if_needed abc)
    = (Ok (VStr "b"), sort_if_needed abc)
  ∧ nextw (VStr "b") 10 abc = (Ok (VStr "c"), sort_if_needed abc).
Proof.
  assert (Hwf : wf (sort_if_needed abc)).
  { apply (bool_decide_unpack _). vm_compute. exact I. }
  assert (Hat : at_position (_ordered_values (sort_if_needed abc)) 2
                = Some (VStr "b")) by reflexivity.
  destruct (prevw_undoes_nextw abc (VStr "b") 2 7 Hwf Hat)
    as (x & Hn & Hp & Hper).
  assert (x = VStr "c") as ->.
  { assert ((nextw (VStr "b") 7 abc).1 = Ok x) as Hx by by rewrite Hn.
    vm_compute in Hx. by injection Hx. }
  by split_and!.
Defined.

(** The set of "b", "c", "a" with an owner that sorts. *)
Lemma wf_bca : wf (ordered_of [VStr "b"; VStr "c"; VStr "a"]).
Proof. apply (bool_decide_unpack _). vm_compute. exact I. Qed.

(** X6 on the set of "b", "c", "a" with an owner that sorts. *)
Lemma sort_keeps_elements_witness :
  let S := ordered_of [VStr "b"; VStr "c"; VStr "a"] in
  wf S
  ∧ sorted_robust (Owner := by_sorting) (_ordered_values S)
      ≡ₚ _ordered_values S
  ∧ _ordered_values (sort_if_needed (H := by_sorting) S)
    = [VStr "a"; VStr "b"; VStr "c"]
  ∧ __len__ (sort_if_needed (H := by_sorting) S) = 3%nat
  ∧ __contains__ (sort_if_needed (H := by_sorting) S) (VStr "c") = true.
Proof.
  intros S.
  assert (Hwf : wf S).
  { apply (bool_decide_unpack _). vm_compute. exact I. }
  assert (Hperm : sorted_robust (Owner := by_sorting) (_ordered_values S)
                    ≡ₚ _ordered_values S) by apply sort_values_permutes.
  destruct (sort_keeps_elements (H := by_sorting) S Hwf Hperm)
    as (_ & Hc & Hl & _).
  split_and!; [exact Hwf | exact Hperm | by vm_compute | |].
  - rewrite Hl. by vm_compute.
  - rewrite Hc. by vm_compute.
Defined.

(** X7 on the set of "a", "b", "c" and on the empty set. *)
Lemma first_and_last_witness :
  wf abc
  ∧ sorted_robust (_ordered_values abc) ≡ₚ _ordered_values abc
  ∧ first abc = (Ok (VStr "a"), sort_if_needed abc)
  ∧ last abc = (Ok (VStr "c"), sort_if_needed abc)
  ∧ first __init__
    = (Raise (IndexError PastLastElement), sort_if_needed __init__)
  ∧ last __init__
    = (Raise (IndexError InvalidIndex), sort_if_needed __init__).
Proof.
  assert (Hwf : wf abc).
  { apply (bool_decide_unpack _). vm_compute. exact I. }
  assert (Hperm : sorted_robust (_ordered_values abc) ≡ₚ _ordered_values abc)
    by apply sort_values_permutes.
  assert (Hwf0 : wf __init__).
  { apply (bool_decide_unpack _). vm_compute. exact I. }
  assert (Hperm0 : sorted_robust (_ordered_values __init__)
                     ≡ₚ _ordered_values __init__)
    by apply sort_values_permutes.
  destruct (first_and_last abc Hwf Hperm) as (_ & Hfirst & Hlast).
  destruct (first_and_last __init__ Hwf0 Hperm0) as (Hempty & _).
  destruct (Hempty eq_refl) as [Hf0 Hl0].
  split_and!; [exact Hwf | exact Hperm | | | exact Hf0 | exact Hl0].
  - by apply Hfirst.
  - by apply Hlast.
Defined.

(** X8: "d" added to the set of "a", "b", "c" in insertion order. *)
Lemma add_appends_witness :
  let S := sort_if_needed abc in
  wf S
  ∧ _is_sorted S = _InsertionOrder
  ∧ outside_domain (_domain S) (VStr "d") = false
  ∧ __contains__ S (flatten_tuple (VStr "d")) = false
  ∧ ord (VStr "d") (state (add S (VStr "d")))
    = (Ok 4, state (add S (VStr "d")))
  ∧ ord (VStr "b") (state (add S (VStr "d")))
    = (Ok 2, state (add S (VStr "d"))).
Proof.
  intros S.
  assert (Hwf : wf S).
  { apply (bool_decide_unpack _). vm_compute. exact I. }
  destruct (add_appends S (VStr "d") Hwf eq_refl eq_refl)
    as (_ & _ & _ & _ & Hnew & Hold).
  { by vm_compute. }
  split_and!; [exact Hwf | reflexivity | reflexivity | by vm_compute | |].
  - refine (eq_trans Hnew _). by vm_compute.
  - apply Hold. by vm_compute.
Defined.

(** X9: "aa" added to the sorted set of "a", "b", "c". *)
Lemma add_defers_sort_witness :
  let S := sort_if_needed (H := by_sorting)
             (ordered_of [VStr "b"; VStr "c"; VStr "a"]) in
  let S' := state (add S (VStr "aa")) in
  wf S
  ∧ _is_sorted S = _Sorted
  ∧ outside_domain (_domain S) (VStr "aa") = false
  ∧ __contains__ S (flatten_tuple (VStr "aa")) = false
  ∧ sorted_robust (Owner := by_sorting)
      (_ordered_values S ++ [flatten_tuple (VStr "aa")])
      ≡ₚ _ordered_values S ++ [flatten_tuple (VStr "aa")]
  ∧ _ordered_values S' = [VStr "a"; VStr "b"; VStr "c"; VStr "aa"]
  ∧ _is_sorted S' = _SortNeeded
  ∧ _ordered_values (sort_if_needed (H := by_sorting) S')
    = [VStr "a"; VStr "aa"; VStr "b"; VStr "c"]
  ∧ _is_sorted (sort_if_needed (H := by_sorting) S') = _Sorted.
Proof.
  intros S S'.
  assert (Hwf : wf S).
  { apply (bool_decide_unpack _). vm_compute. exact I. }
  assert (Hperm : sorted_robust (Owner := by_sorting)
      (_ordered_values S ++ [flatten_tuple (VStr "aa")])
      ≡ₚ _ordered_values S ++ [flatten_tuple (VStr "aa")])
    by apply sort_values_permutes.
  destruct (add_defers_sort (H := by_sorting) S (VStr "aa") Hwf eq_refl eq_refl)
    as (Hst & Hov & Hst' & Hov' & _); [by vm_compute | exact Hperm |].
  split_and!; [exact Hwf | reflexivity | reflexivity | by vm_compute
               | exact Hperm | | exact Hst | | exact Hst'].
  - subst S'. rewrite Hov. by vm_compute.
  - subst S'. rewrite Hov'. by vm_compute.
Defined.

End MoreExamples.

Section MoreSetExamples.
Import SetData Comparisons Examples.
#[local] Existing Instance by_insertion.

(** X11: (1, (2, 3)) and ((1, 2), 3) have the flat form (1, 2, 3). *)
Lemma add_same_flat_form_witness :
  let v := VTuple [VInt 1; VTuple [VInt 2; VInt 3]] in
  let w := VTuple [VTuple [VInt 1; VInt 2]; VInt 3] in
  let S := finite_of None [VInt 0] in
  flatten_tuple v = flatten_tuple w
  ∧ outside_domain (FiniteSetData._domain S) v = false
  ∧ outside_domain (FiniteSetData._domain S) w = false
  ∧ FiniteSetData.add (state (FiniteSetData.add S v)) w
    = Outcome (Ok tt) (state (FiniteSetData.add S v))
        [Warning_already_exists (VTuple [VInt 1; VInt 2; VInt 3])]
  ∧ outside_domain (OrderedSetData._domain abc) v = false
  ∧ outside_domain (OrderedSetData._domain abc) w = false
  ∧ OrderedSetData.add (state (OrderedSetData.add abc v)) w
    = Outcome (Ok tt) (state (OrderedSetData.add abc v))
        [Warning_already_exists (VTuple [VInt 1; VInt 2; VInt 3])].
Proof.
  intros v w S.
  assert (Hflat : flatten_tuple v = flatten_tuple w) by reflexivity.
  destruct (add_same_flat_form v w Hflat) as [Hfin Hord].
  split_and!;
    [ exact Hflat | reflexivity | reflexivity
    | exact (Hfin S eq_refl eq_refl)
    | reflexivity | reflexivity
    | exact (Hord abc eq_refl eq_refl) ].
Defined.

(** X12: 5 and then 0 added to the finite set {0}. *)
Lemma finite_add_membership_witness :
  let S := finite_of None [VInt 0] in
  outside_domain (FiniteSetData._domain S) (VInt 5) = false
  ∧ FiniteSetData.__len__ (state (FiniteSetData.add S (VInt 5))) = 2%nat
  ∧ FiniteSetData.__len__ (state (FiniteSetData.add S (VInt 0))) = 1%nat
  ∧ FiniteSetData.__contains__ (state (FiniteSetData.add S (VInt 5))) (VInt 0)
    = true.
Proof.
  intros S.
  destruct (finite_add_membership S (VInt 5) eq_refl) as (_ & Hin & Hlen & _).
  destruct (finite_add_membership S (VInt 0) eq_refl) as (_ & _ & Hlen0 & _).
  split_and!; [reflexivity | | |].
  - rewrite Hlen. by vm_compute.
  - rewrite Hlen0. by vm_compute.
  - apply Hin. right. by vm_compute.
Defined.

(** X15: the set over [0, +oo) against the collection [0, 5]. *)
Lemma infinite_never_within_collection_witness :
  2%nat ≠ 9%nat
  ∧ __eq__ from_zero (PlainCollection 9 [VInt 0; VInt 5]) = Ok false
  ∧ issubset from_zero (PlainCollection 9 [VInt 0; VInt 5]) = Ok false.
Proof.
  assert (Hid : 2%nat ≠ 9%nat) by lia.
  destruct (infinite_never_within_collection 2 9 [Interval.nonnegative]
              [VInt 0; VInt 5] Hid) as (He & Hs & _).
  by split_and!.
Defined.

(** X17: the finite set {0, 5} against the collection [0, 5]. *)
Lemma finite_data_never_within_collection_witness :
  finite_data_object zero_five
  ∧ ident zero_five ≠ 9%nat
  ∧ __eq__ zero_five (PlainCollection 9 [VInt 0; VInt 5]) = Ok false
  ∧ issubset zero_five (PlainCollection 9 [VInt 0; VInt 5]) = Ok false.
Proof.
  assert (Hobj : finite_data_object zero_five).
  { left. by eexists _, _. }
  assert (Hid : ident zero_five ≠ 9%nat) by (simpl; lia).
  destruct (finite_data_never_within_collection zero_five 9
              [VInt 0; VInt 5] Hobj Hid) as (He & Hs).
  by split_and!.
Defined.

(** X18: the finite set {0, 5} and the ordered set of "a", "b", "c". *)
Lemma finite_data_comparisons_raise_witness :
  finite_data_object zero_five
  ∧ finite_data_object (OrderedSet (Range := Interval.t) 5 abc)
  ∧ ident zero_five ≠ ident (OrderedSet (Range := Interval.t) 5 abc)
  ∧ issuperset zero_five (OrderedSet 5 abc) = Raise AttributeError
  ∧ __eq__ (OrderedSet 5 abc) zero_five = Raise AttributeError.
Proof.
  assert (H1 : finite_data_object zero_five).
  { left. by eexists _, _. }
  assert (H2 : finite_data_object (OrderedSet (Range := Interval.t) 5 abc)).
  { right. by eexists _, _. }
  assert (Hid : ident zero_five ≠ ident (OrderedSet (Range := Interval.t) 5 abc))
    by (simpl; lia).
  destruct (finite_data_comparisons_raise zero_five (OrderedSet 5 abc) H1 H2 Hid)
    as (_ & _ & Hsup & _).
  destruct (finite_data_comparisons_raise (OrderedSet 5 abc) zero_five H2 H1
              (not_eq_sym Hid)) as (Heq & _).
  by split_and!.
Defined.

(** X22: the set over [0, +oo) against the collection [-3, -1]. *)
Lemma isdisjoint_boolean_unless_infinite_witness :
  is_finite (PlainCollection (Range := Interval.t) 9 [VInt (-3); VInt (-1)])
  = true
  ∧ isdisjoint from_zero (PlainCollection 9 [VInt (-3); VInt (-1)])
    = Ok (Some true).
Proof.
  assert (Hfin : is_finite
    (PlainCollection (Range := Interval.t) 9 [VInt (-3); VInt (-1)]) = true)
    by reflexivity.
  split; [exact Hfin|].
  destruct (isdisjoint_boolean_unless_infinite from_zero
              (PlainCollection 9 [VInt (-3); VInt (-1)]) (or_intror Hfin))
    as [[b Hb]|[e He]].
  - rewrite Hb.
    assert (isdisjoint from_zero (PlainCollection 9 [VInt (-3); VInt (-1)])
            = Ok (Some true)) as E by by vm_compute.
    rewrite Hb in E. exact E.
  - assert (isdisjoint from_zero (PlainCollection 9 [VInt (-3); VInt (-1)])
            = Ok (Some true)) as E by by vm_compute.
    rewrite He in E. discriminate E.
Defined.

(** X14 and X16 on concrete sets. *)
Example collections_against_sets :
  issuperset from_zero (PlainCollection 9 [VInt 0; VInt 5]) = Ok true
  ∧ isdisjoint from_zero (PlainCollection 9 [VInt 0; VInt 5]) = Ok (Some false)
  ∧ issuperset zero_five (PlainCollection 9 [VInt 5]) = Ok true
  ∧ issuperset zero_five (PlainCollection 9 [VInt 5; VInt 6]) = Ok false
  ∧ isdisjoint zero_five (PlainCollection 9 [VInt 6]) = Ok (Some true).
Proof. by vm_compute. Qed.

End MoreSetExamples.
